(** * NQueens experiment sweep and results aggregation

    A shallow embedding of the two scripts of the repository:

    - [run_nqueens.py], the sweep driver, as module [Run];
    - [analyze_nqueens.py], the results aggregator, as module [Analyze].

    Both scripts are top-level code.  Their effects (printing, launching
    processes, looking at the file system, writing artifacts) are modelled by
    explicit state passing.  The operating system and the solver binary are
    an interface ([Host]); nothing is assumed about them.  The parser of
    numeric literals and the plotting calls of the aggregator are an
    interface too ([Pandas]): plotting may raise, and a property that needs
    a chart to be drawn says so. *)

From Stdlib Require Import List String Ascii ZArith QArith Qreduction Lia Bool.
From Stdlib Require Import DecimalString Permutation Qabs Lqa.
Import ListNotations.

Local Open Scope string_scope.
Local Open Scope Z_scope.

(** ** Python values shared by the two scripts *)

(** The newline character of the f-strings that start with [\n]. *)
Definition nl : string := String (ascii_of_nat 10) EmptyString.

(** [str(n)] for a Python [int]. *)
Definition str_int (z : Z) : string := NilZero.string_of_int (Z.to_int z).

(** [str(b)] for a Python [bool]. *)
Definition str_bool (b : bool) : string := if b then "True" else "False".

(** Truthiness of a Python [str]: the empty string is falsy. *)
Definition truthy (s : string) : bool :=
  match s with EmptyString => false | String _ _ => true end.

(** [range(lo, hi)]. *)
Definition range (lo hi : Z) : list Z :=
  map (fun i => lo + Z.of_nat i) (seq 0 (Z.to_nat (hi - lo))).

(** How a script ends: [exit(code)], an exception that nothing catches
    (the interpreter prints the traceback and the process status is 1), or
    the end of the file. *)
Inductive ending : Type :=
| Exited (code : Z)
| Uncaught (exn : string)
| Finished.

Definition exit_status (e : ending) : Z :=
  match e with
  | Exited code => code
  | Uncaught _ => 1
  | Finished => 0
  end.

Definition fatal (e : ending) : bool :=
  match e with Finished => false | _ => true end.

(** ** The sweep driver, [run_nqueens.py] *)

Module Run.

(** What [subprocess.run(..., capture_output=True, text=True)] returns. *)
Record CompletedProcess : Type := {
  returncode : Z;
  stdout : string;
  stderr : string
}.

(** One call of [subprocess.run]: it returns a [CompletedProcess] (whatever
    the exit status: [check] is not set), or it raises an instance of
    [Exception], such as the [OSError] of a process that cannot be launched.
    The string is the text of the exception. *)
Inductive attempt : Type :=
| Completed (p : CompletedProcess)
| Raised (e : string).

(** The machine the driver runs on.  [World] is its state; launching a
    process may change it (the solver appends to the record store). *)
Class Host : Type := {
  World : Type;
  path_exists : World -> string -> bool;
  subprocess_run : World -> list string -> attempt * World;
  project_root : string;
  os_sep : string
}.

Section Driver.
Context `{H : Host}.

(** [os.path.join] on a directory and relative components. *)
Definition os_path_join (dir : string) (parts : list string) : string :=
  fold_left (fun acc p => acc ++ os_sep ++ p) parts dir.

Definition exe_path : string :=
  os_path_join project_root ["bin"; "Release"; "net8.0"; "NQueensV1.exe"].

Definition analysis_script : string :=
  os_path_join project_root ["analyze_nqueens.py"].

Definition n_values : list Z :=
  [4; 6; 8; 10; 12; 14; 16; 18; 20; 24; 32; 50; 64; 80].
Definition algorithms : list string := ["Genetic"; "Tournament"].
Definition seeds : list Z := range 0 100.
Definition debug_mode : bool := false.

(** [itertools.product(a, b, c)]: the rightmost sequence advances fastest. *)
Definition product {A B C : Type} (a : list A) (b : list B) (c : list C)
  : list (A * B * C) :=
  flat_map (fun x => flat_map (fun y => map (fun z => (x, y, z)) c) b) a.

(** The state of the running driver: the machine, the texts given to
    [print] and the argument lists given to [subprocess.run], both oldest
    first. *)
Record state : Type := {
  world : World;
  printed : list string;
  launched : list (list string)
}.

Definition start (w : World) : state :=
  {| world := w; printed := []; launched := [] |}.

Definition print (s : string) (st : state) : state :=
  {| world := world st; printed := printed st ++ [s]; launched := launched st |}.

(** A call of [subprocess.run]: the call is recorded, the machine moves on. *)
Definition launch (argv : list string) (st : state) : attempt * state :=
  let '(a, w) := subprocess_run (world st) argv in
  (a, {| world := w; printed := printed st; launched := launched st ++ [argv] |}).

Definition solver_argv (t : Z * string * Z) : list string :=
  let '(n, algorithm, seed) := t in
  [exe_path; str_int n; algorithm; str_int seed; str_bool debug_mode].

Definition banner (t : Z * string * Z) : string :=
  let '(n, algorithm, seed) := t in
  nl ++ "Running N-Queens Solver: N=" ++ str_int n ++ ", Algorithm="
     ++ algorithm ++ ", Seed=" ++ str_int seed.

(** The body of the [for] loop, lines 25 to 42. *)
Definition run_triple (st : state) (t : Z * string * Z) : state :=
  let st := print (banner t) st in
  match launch (solver_argv t) st with
  | (Completed p, st) =>
      let st := print (stdout p) st in
      if truthy (stderr p) then print ("Error: " ++ stderr p) st else st
  | (Raised e, st) => print ("Execution failed: " ++ e) st
  end.

(** The [for] loop over the grid. *)
Fixpoint sweep (st : state) (grid : list (Z * string * Z)) : state :=
  match grid with
  | [] => st
  | t :: rest => sweep (run_triple st t) rest
  end.

Definition completion_message : string :=
  nl ++ "All executions completed! Check `summary.csv` and generated charts.".

(** Lines 44 to 51: the analysis is launched outside any [try]. *)
Definition after_sweep (st : state) : ending * state :=
  if path_exists (world st) analysis_script then
    let st := print (nl ++ "Running analysis on results...") st in
    match launch ["python"; analysis_script] st with
    | (Completed _, st) => (Finished, print completion_message st)
    | (Raised e, st) => (Uncaught e, st)
    end
  else
    let st := print "Analysis script not found. Skipping analysis." st in
    (Finished, print completion_message st).

(** The whole script, for a grid given by its three sequences. *)
Definition driver (ns : list Z) (algs : list string) (sds : list Z) (w : World)
  : ending * state :=
  if negb (path_exists w exe_path) then
    (Exited 1, print ("Error: Executable not found at " ++ exe_path) (start w))
  else
    after_sweep (sweep (start w) (product ns algs sds)).

(** The script with the grid it has in the source. *)
Definition main (w : World) : ending * state :=
  driver n_values algorithms seeds w.

End Driver.

End Run.

(** ** The results aggregator, [analyze_nqueens.py] *)

Module Analyze.

(** *** Data frames *)

(** A cell of a [DataFrame]: text, a number, a boolean, or the missing-value
    sentinel [NaN].  Floating-point numbers are idealised as rationals, kept
    in lowest terms so that equal numbers are equal terms. *)
Inductive value : Type :=
| VStr (s : string)
| VNum (q : Q)
| VBool (b : bool)
| VNaN.

(** The dtype of a column.  A categorical column carries its categories. *)
Inductive dtype : Type :=
| DObject
| DNumber
| DBool
| DCategory (categories : list value).

(** A record of the table: its cells by column name, in column order. *)
Definition row : Type := list (string * value).

Record frame : Type := {
  dtypes : list (string * dtype);
  rows : list row
}.

Definition columns (df : frame) : list string := map fst (dtypes df).

(** [col in df.columns] *)
Definition has_column (df : frame) (col : string) : bool :=
  existsb (String.eqb col) (columns df).

Fixpoint cell (r : row) (col : string) : value :=
  match r with
  | [] => VNaN
  | (k, v) :: r' => if String.eqb k col then v else cell r' col
  end.

Fixpoint set_cell (r : row) (col : string) (v : value) : row :=
  match r with
  | [] => [(col, v)]
  | (k, w) :: r' =>
      if String.eqb k col then (k, v) :: r' else (k, w) :: set_cell r' col v
  end.

Fixpoint dtype_of (ds : list (string * dtype)) (col : string) : option dtype :=
  match ds with
  | [] => None
  | (k, d) :: ds' => if String.eqb k col then Some d else dtype_of ds' col
  end.

Fixpoint set_dtype (ds : list (string * dtype)) (col : string) (d : dtype)
  : list (string * dtype) :=
  match ds with
  | [] => [(col, d)]
  | (k, e) :: ds' =>
      if String.eqb k col then (k, d) :: ds' else (k, e) :: set_dtype ds' col d
  end.

(** [df[col] = f(row)] with the dtype of the new series: an existing column
    is replaced in place, a new one is added last. *)
Definition assign (df : frame) (col : string) (d : dtype) (f : row -> value)
  : frame :=
  {| dtypes := set_dtype (dtypes df) col d;
     rows := map (fun r => set_cell r col (f r)) (rows df) |}.

(** *** Pandas operations the script calls *)

(** A Pearson coefficient as [DataFrame.corr] reports it: undefined
    ([NaN]), or a number [r] between -1 and 1.  [r] is a square root, so it
    is recorded exactly by its signed square [r * |r|], which determines
    it. *)
Inductive coefficient : Type :=
| Undefined
| SignedSquare (q : Q).

Record matrix : Type := {
  labels : list string;
  entries : list (list coefficient)
}.

(** What a figure is drawn from. *)
Inductive figure : Type :=
| Boxplot (points : list (value * value))
| Scatter (points : list (value * value * value))
| Barplot (bars : list (value * value))
| Heatmap (m : matrix)
| AnnotatedBars (bars : list (value * value)) (notes : list (nat * value * value)).

(** The parts of the libraries that are taken as given: the parser of
    numeric literals behind [pd.to_numeric], and whether seaborn and
    matplotlib draw a figure from its data or raise, and which exception:
    [None] when the figure is drawn. *)
Class Pandas : Type := {
  parse_float : string -> option Q;
  plot_error : figure -> option string
}.

Definition Q_eqb (p q : Q) : bool :=
  Z.eqb (Qnum p) (Qnum q) && Pos.eqb (Qden p) (Qden q).

Definition value_eqb (v w : value) : bool :=
  match v, w with
  | VStr s, VStr t => String.eqb s t
  | VNum p, VNum q => Q_eqb p q
  | VBool a, VBool b => Bool.eqb a b
  | _, _ => false
  end.

Definition isna (v : value) : bool :=
  match v with VNaN => true | _ => false end.

(** The order Python sorts the values of one column by. *)
Definition value_leb (v w : value) : bool :=
  match v, w with
  | VStr s, VStr t => String.leb s t
  | VNum p, VNum q => Qle_bool p q
  | VBool a, VBool b => implb a b
  | _, _ => true
  end.

Fixpoint insert_sorted (v : value) (l : list value) : list value :=
  match l with
  | [] => [v]
  | w :: l' => if value_leb v w then v :: l else w :: insert_sorted v l'
  end.

Definition sort_values (l : list value) : list value :=
  fold_right insert_sorted [] l.

Fixpoint unique (l : list value) : list value :=
  match l with
  | [] => []
  | v :: l' => v :: filter (fun w => negb (value_eqb v w)) (unique l')
  end.

Definition series (df : frame) (col : string) : list value :=
  map (fun r => cell r col) (rows df).

(** [df[col].astype('category')]: the categories are the distinct values
    present in the column, sorted; missing values are no category. *)
Definition infer_categories (vs : list value) : list value :=
  sort_values (unique (filter (fun v => negb (isna v)) vs)).

Definition astype_category (df : frame) (col : string) : frame :=
  {| dtypes := set_dtype (dtypes df) col (DCategory (infer_categories (series df col)));
     rows := rows df |}.

Section WithPandas.
Context `{P : Pandas}.

(** [pd.to_numeric(..., errors="coerce")] on one cell: text that does not
    parse becomes [NaN]. *)
Definition to_numeric (v : value) : value :=
  match v with
  | VStr s =>
      match parse_float s with
      | Some q => VNum (Qred q)
      | None => VNaN
      end
  | other => other
  end.

Definition to_numeric_dtype (d : option dtype) : dtype :=
  match d with
  | Some DBool => DBool
  | _ => DNumber
  end.

Definition numeric_columns : list string :=
  ["Id"; "NQueens"; "Seed"; "MutationRate"; "FinalMutationRate"; "Generations";
   "PopulationSize"; "Complexity"; "ElapsedTimeSeconds"; "StagnationCount";
   "StagnationMutationThresholdHigh"; "StagnationMutationThresholdLow";
   "Intersections"; "Failures"].

(** The body of the loop of lines 28 to 30. *)
Definition coerce_column (df : frame) (col : string) : frame :=
  if has_column df col then
    assign df col (to_numeric_dtype (dtype_of (dtypes df) col))
           (fun r => to_numeric (cell r col))
  else df.

Definition coerce (df : frame) : frame :=
  fold_left coerce_column numeric_columns df.

(** The same loop seen from one record: what the coercion of one column
    does to it. *)
Definition coerce_cell (r : row) (col : string) : row :=
  set_cell r col (to_numeric (cell r col)).

(** What the whole loop of lines 28 to 30 does to one record of [df]. *)
Definition coerced (df : frame) (r : row) : row :=
  fold_left coerce_cell (filter (has_column df) numeric_columns) r.

End WithPandas.

(** [series > 0], element-wise: a comparison with [NaN] is [False].  The
    script compares a coerced column, which holds no text. *)
Definition gt0 (v : value) : bool :=
  match v with
  | VNum q => negb (Qle_bool q 0)
  | VBool b => b
  | _ => false
  end.

(** Line 33. *)
Definition add_failure (df : frame) : frame :=
  assign df "Failure" DBool (fun r => VBool (gt0 (cell r "Intersections"))).

(** The number a cell counts as in a mean; [None] for a cell that is
    skipped. *)
Definition as_number (v : value) : option Q :=
  match v with
  | VNum q => Some q
  | VBool b => Some (if b then 1%Q else 0%Q)
  | _ => None
  end.

Definition numbers (vs : list value) : list Q :=
  flat_map (fun v => match as_number v with Some q => [q] | None => [] end) vs.

Definition Qsum (qs : list Q) : Q := fold_right Qplus 0%Q qs.

(** [Series.mean()]: missing values are skipped, and the mean of nothing is
    [NaN].  The script takes means of a boolean and of a coerced column
    only.  The sum and the quotient are exact here.  For a column of flags
    they are exact in the script too, whose sum is then a count; for a
    measured column the script rounds, so its mean is this one up to
    rounding, and may depend on the order of the records in the last
    digits. *)
Definition mean (vs : list value) : value :=
  match numbers vs with
  | [] => VNaN
  | qs => VNum (Qred (Qsum qs / inject_Z (Z.of_nat (List.length qs))))
  end.

(** The fraction [k / n] as a mean reports it: [NaN] when [n] is zero. *)
Definition rate (k n : nat) : value :=
  match n with
  | O => VNaN
  | S _ => VNum (Qred (inject_Z (Z.of_nat k) / inject_Z (Z.of_nat n)))
  end.

(** The rows of one group. *)
Definition group (df : frame) (key : string) (c : value) : list row :=
  filter (fun r => value_eqb (cell r key) c) (rows df).

Definition categories_of (df : frame) (key : string) : list value :=
  match dtype_of (dtypes df) key with
  | Some (DCategory cs) => cs
  | _ => infer_categories (series df key)
  end.

(** [df.groupby(key, observed=False)[col].mean().reset_index()]: one line
    per category of the key, present in the data or not. *)
Definition groupby_mean (df : frame) (key col : string) : list (value * value) :=
  map (fun c => (c, mean (map (fun r => cell r col) (group df key c))))
      (categories_of df key).

(** [df[df[col] == False]] *)
Definition where_false (df : frame) (col : string) : frame :=
  {| dtypes := dtypes df;
     rows := filter (fun r => value_eqb (cell r col) (VBool false)) (rows df) |}.

(** [df.select_dtypes(include=[np.number]).columns.tolist()]: booleans and
    categoricals are not numbers. *)
Definition select_number (df : frame) : list string :=
  map fst (filter (fun kd => match snd kd with DNumber => true | _ => false end)
                  (dtypes df)).

(** [list.remove(x)], for an [x] known to be in the list. *)
Fixpoint remove_first (x : string) (l : list string) : list string :=
  match l with
  | [] => []
  | y :: l' => if String.eqb y x then l' else y :: remove_first x l'
  end.

(** Lines 81 to 86. *)
Definition numeric_cols (df : frame) : list string :=
  let cols := select_number df in
  if existsb (String.eqb "Seed") cols then remove_first "Seed" cols else cols.

(** The observations [DataFrame.corr] uses for a pair of columns: the rows
    where both cells are numbers. *)
Definition complete_pairs (df : frame) (a b : string) : list (Q * Q) :=
  flat_map (fun r =>
              match cell r a, cell r b with
              | VNum x, VNum y => [(x, y)]
              | _, _ => []
              end) (rows df).

Definition average (qs : list Q) : Q :=
  (Qsum qs / inject_Z (Z.of_nat (List.length qs)))%Q.

(** The sum, over the observations, of the product of the deviations of
    [f] and of [g] from their averages. *)
Definition codeviation {A : Type} (f g : A -> Q) (obs : list A) : Q :=
  Qsum (map (fun p => (f p - average (map f obs)) * (g p - average (map g obs)))%Q
            obs).

(** The Pearson coefficient of paired observations, the default method of
    [DataFrame.corr]: the covariance over the product of the standard
    deviations, undefined when that product is zero (no observation, or a
    constant column). *)
Definition pearson_r (obs : list (Q * Q)) : coefficient :=
  let sxy := codeviation fst snd obs in
  let sxx := codeviation fst fst obs in
  let syy := codeviation snd snd obs in
  if Qeq_bool (sxx * syy) 0 then Undefined
  else SignedSquare (Qred (sxy * Qabs sxy / (sxx * syy))%Q).

(** [df[cols].corr()] *)
Definition corr (df : frame) (cols : list string) : matrix :=
  {| labels := cols;
     entries := map (fun a => map (fun b => pearson_r (complete_pairs df a b)) cols)
                    cols |}.

(** [df.head(n)], [df.tail(n)] (for [n > 0]) and [pd.concat] of frames with
    the same columns. *)
Definition head (n : nat) (df : frame) : frame :=
  {| dtypes := dtypes df; rows := firstn n (rows df) |}.

Definition tail (n : nat) (df : frame) : frame :=
  {| dtypes := dtypes df; rows := skipn (List.length (rows df) - n) (rows df) |}.

Definition concat (a b : frame) : frame :=
  {| dtypes := dtypes a; rows := rows a ++ rows b |}.

(** Line 128. *)
Definition partial_df (df : frame) : frame := concat (head 5 df) (tail 5 df).

(** The lines [to_csv(..., index=False)] writes after the header. *)
Definition csv_body (df : frame) : list (list value) :=
  map (fun r => map (cell r) (columns df)) (rows df).

(** *** The script *)

(** A file the script writes. *)
Inductive artifact : Type :=
| Figure (file : string) (f : figure)
| Csv (file : string) (header : list string) (body : list (list value)).

(** The record store as [pd.read_csv] finds it: a file with nothing to parse,
    or a table. *)
Inductive stored : Type :=
| EmptyFile
| Records (df : frame).

(** The two places the script reads the record store from: the path built
    from the script's own directory (line 9), and the path relative to the
    current directory (line 127).  [None] is a file that does not exist. *)
Record files : Type := {
  summary_csv : option stored;
  cwd_summary_csv : option stored
}.

Record state : Type := {
  printed : list string;
  written : list artifact
}.

Inductive result (A : Type) : Type :=
| Ok (a : A)
| Stop (e : ending).
Arguments Ok {A} a.
Arguments Stop {A} e.

(** Top-level code that prints, writes files and may stop early. *)
Definition script (A : Type) : Type := state -> result A * state.

Definition ret {A : Type} (a : A) : script A := fun st => (Ok a, st).

Definition bind {A B : Type} (m : script A) (k : A -> script B) : script B :=
  fun st =>
    match m st with
    | (Ok a, st') => k a st'
    | (Stop e, st') => (Stop e, st')
    end.

Notation "x <- m ;; k" := (bind m (fun x => k))
  (at level 61, m at next level, right associativity).
Notation "m ;; k" := (bind m (fun _ => k))
  (at level 61, right associativity).

Definition print (s : string) : script unit :=
  fun st => (Ok tt, {| printed := printed st ++ [s]; written := written st |}).

Definition write (a : artifact) : script unit :=
  fun st => (Ok tt, {| printed := printed st; written := written st ++ [a] |}).

Definition raise {A : Type} (exn : string) : script A :=
  fun st => (Stop (Uncaught exn), st).

Definition exit {A : Type} (code : Z) : script A :=
  fun st => (Stop (Exited code), st).

Definition read_csv (f : option stored) : script frame :=
  match f with
  | None => raise "FileNotFoundError"
  | Some EmptyFile => raise "EmptyDataError"
  | Some (Records df) => ret df
  end.

(** A column that is read must be there: [df[col]] raises [KeyError],
    seaborn raises [ValueError]. *)
Definition need (exn : string) (df : frame) (col : string) : script unit :=
  if has_column df col then ret tt else raise (exn ++ ": " ++ col).

Section Script.
Context `{P : Pandas}.

(** One chart, from [plt.figure] to [plt.savefig]: the file is written when
    the plotting calls return, and nothing is when they raise. *)
Definition draw (file : string) (f : figure) : script unit :=
  match plot_error f with
  | Some exn => raise exn
  | None => write (Figure file f)
  end.

(** Lines 20 to 33: the table every statistic is computed from. *)
Definition load (df : frame) : script frame :=
  need "KeyError" df "AlgorithmType" ;;
  let df := astype_category df "AlgorithmType" in
  let df := coerce df in
  need "KeyError" df "Intersections" ;;
  ret (add_failure df).

(** What lines 20 to 33 do to the table, when both columns they read are
    there. *)
Definition loaded (df0 : frame) : frame :=
  add_failure (coerce (astype_category df0 "AlgorithmType")).

(** What lines 20 to 33 make of one record read from the store. *)
Definition load_row (df0 : frame) (r0 : row) : row :=
  let r := coerced (astype_category df0 "AlgorithmType") r0 in
  set_cell r "Failure" (VBool (gt0 (cell r "Intersections"))).

(** Line 36. *)
Definition failure_rates (df : frame) : list (value * value) :=
  groupby_mean df "AlgorithmType" "Failure".

(** Line 98. *)
Definition df_valid (df : frame) : frame := where_false df "Failure".

(** Line 101. *)
Definition avg_elapsed (df : frame) : list (value * value) :=
  groupby_mean (df_valid df) "AlgorithmType" "ElapsedTimeSeconds".

(** Line 89. *)
Definition corr_matrix (df : frame) : matrix := corr df (numeric_cols df).

(** What the charts of lines 48, 58 and 91 are drawn from. *)
Definition elapsed_boxplot (df : frame) : figure :=
  Boxplot (map (fun r => (cell r "AlgorithmType", cell r "ElapsedTimeSeconds"))
               (rows df)).

Definition complexity_scatter (df : frame) : figure :=
  Scatter (map (fun r => (cell r "NQueens", cell r "Complexity",
                          cell r "AlgorithmType")) (rows df)).

Definition correlation_heatmap (df : frame) : figure := Heatmap (corr_matrix df).

(** Lines 115 to 120: one note per bar, with the failure rate of the bar's
    algorithm; [.values[0]] on no match raises [IndexError]. *)
Fixpoint annotate (rates : list (value * value)) (index : nat)
         (bars : list (value * value)) : script (list (nat * value * value)) :=
  match bars with
  | [] => ret []
  | (alg, elapsed) :: rest =>
      match find (fun kv => value_eqb (fst kv) alg) rates with
      | None => raise "IndexError"
      | Some (_, failure_rate) =>
          notes <- annotate rates (S index) rest ;;
          ret ((index, elapsed, failure_rate) :: notes)
      end
  end.

Definition reduced_file : string := "Data/summaryReduced.csv".

(** Lines 127 to 130. *)
Definition export_reduced (fs : files) : script unit :=
  df <- read_csv (cwd_summary_csv fs) ;;
  let partial := partial_df df in
  write (Csv reduced_file (columns partial) (csv_body partial)) ;;
  print "Exported summaryReduced.csv successfully.".

(** The whole script. *)
Definition analysis (fs : files) : script unit :=
  (match summary_csv fs with
   | None => print "Error: summary.csv not found in Data folder." ;; exit 1
   | Some _ => ret tt
   end) ;;
  df <- read_csv (summary_csv fs) ;;
  df <- load df ;;
  let rates := failure_rates df in
  need "ValueError" df "ElapsedTimeSeconds" ;;
  draw "elapsed_time_comparison.png" (elapsed_boxplot df) ;;
  need "ValueError" df "NQueens" ;;
  need "ValueError" df "Complexity" ;;
  draw "time_complexity_comparison.png" (complexity_scatter df) ;;
  draw "failure_rate_comparison.png" (Barplot rates) ;;
  draw "parameter_correlation_heatmap.png" (correlation_heatmap df) ;;
  let bars := avg_elapsed df in
  notes <- annotate rates 0 bars ;;
  draw "avg_elapsed_time_valid.png" (AnnotatedBars bars notes) ;;
  print "Updated charts saved in Data folder." ;;
  export_reduced fs.

Definition analyze (fs : files) : ending * state :=
  match analysis fs {| printed := []; written := [] |} with
  | (Ok _, st) => (Finished, st)
  | (Stop e, st) => (e, st)
  end.

End Script.

End Analyze.

(** ** Concrete machines and tables, for the examples *)

Module Demo.

(** A machine whose state counts the processes launched so far.  The solver
    cannot be launched the second time, exits with status 2 and a message on
    its error stream the third time, and succeeds otherwise; [python] can be
    launched if [python_on_path]. *)
Definition demo_run (python_on_path : bool) (w : nat) (argv : list string)
  : Run.attempt * nat :=
  (match argv with
   | "python" :: _ =>
       if python_on_path
       then Run.Completed {| Run.returncode := 1; Run.stdout := ""; Run.stderr := "" |}
       else Run.Raised "[Errno 2] No such file or directory: 'python'"
   | _ =>
       match w with
       | 1%nat => Run.Raised "[WinError 193] not a valid application"
       | 2%nat => Run.Completed {| Run.returncode := 2; Run.stdout := "";
                                  Run.stderr := "board too small" |}
       | _ => Run.Completed {| Run.returncode := 0; Run.stdout := "solved";
                               Run.stderr := "" |}
       end
   end, S w).

Definition demo_host (exe script python_on_path : bool) : Run.Host :=
  {| Run.World := nat;
     Run.path_exists := fun _ p =>
       if String.eqb p "/repo/analyze_nqueens.py" then script else exe;
     Run.subprocess_run := demo_run python_on_path;
     Run.project_root := "/repo";
     Run.os_sep := "/" |}.

(** A parser of numeric literals that knows unsigned decimal integers. *)
Definition digit (c : ascii) : option Z :=
  let n := Z.of_nat (nat_of_ascii c) in
  if (48 <=? n) && (n <=? 57) then Some (n - 48) else None.

Fixpoint parse_digits (acc : Z) (s : string) : option Z :=
  match s with
  | EmptyString => Some acc
  | String c s' =>
      match digit c with
      | Some d => parse_digits (10 * acc + d) s'
      | None => None
      end
  end.

Definition parse_unsigned (s : string) : option Q :=
  match s with
  | EmptyString => None
  | _ => option_map inject_Z (parse_digits 0 s)
  end.

(** Plotting that draws every figure. *)
Definition demo_pandas : Analyze.Pandas :=
  {| Analyze.parse_float := parse_unsigned; Analyze.plot_error := fun _ => None |}.

(** Plotting that raises on a box plot with no number to draw, and draws
    every other figure. *)
Definition strict_plot_error (f : Analyze.figure) : option string :=
  match f with
  | Analyze.Boxplot points =>
      match Analyze.numbers (map snd points) with
      | [] => Some "ValueError"
      | _ => None
      end
  | _ => None
  end.

Definition strict_pandas : Analyze.Pandas :=
  {| Analyze.parse_float := parse_unsigned; Analyze.plot_error := strict_plot_error |}.

(** A record as [pd.read_csv] gives it. *)
Definition record (alg : string) (n seed : Z) (elapsed intersections : Analyze.value)
  : Analyze.row :=
  [("AlgorithmType", Analyze.VStr alg); ("NQueens", Analyze.VNum (inject_Z n));
   ("Seed", Analyze.VNum (inject_Z seed)); ("Complexity", Analyze.VNum 100%Q);
   ("ElapsedTimeSeconds", elapsed); ("Intersections", intersections)].

Definition num (z : Z) : Analyze.value := Analyze.VNum (inject_Z z).

Definition table (elapsed_dtype intersections_dtype : Analyze.dtype)
           (rs : list Analyze.row) : Analyze.frame :=
  {| Analyze.dtypes :=
       [("AlgorithmType", Analyze.DObject); ("NQueens", Analyze.DNumber);
        ("Seed", Analyze.DNumber); ("Complexity", Analyze.DNumber);
        ("ElapsedTimeSeconds", elapsed_dtype);
        ("Intersections", intersections_dtype)];
     Analyze.rows := rs |}.

(** The table of the specification's example: three Genetic runs with 0, 0
    and 2 intersections, two Tournament runs with 0 and 1. *)
Definition five_runs : Analyze.frame :=
  table Analyze.DNumber Analyze.DNumber
    [record "Genetic" 8 0 (num 2) (num 0);
     record "Genetic" 8 1 (num 4) (num 0);
     record "Genetic" 8 2 (num 9) (num 2);
     record "Tournament" 8 0 (num 1) (num 0);
     record "Tournament" 8 1 (num 3) (num 1)].

(** Seven runs, numbered by their seed. *)
Definition seven_runs : Analyze.frame :=
  table Analyze.DNumber Analyze.DNumber
    (map (fun i => record "Genetic" 8 i (num 1) (num 0)) (range 0 7)).

(** Two runs whose cells came out of a truncated line: the elapsed time of
    the first and the intersections of the second are not numbers, so both
    columns were read as text. *)
Definition damaged_runs : Analyze.frame :=
  table Analyze.DObject Analyze.DObject
    [record "Genetic" 8 0 (Analyze.VStr "oops") (Analyze.VStr "0");
     record "Genetic" 8 1 (Analyze.VStr "4") (Analyze.VStr "n/a");
     record "Genetic" 8 2 (Analyze.VStr "2") (Analyze.VStr "3")].

(** A store with one run, whose elapsed time is not a number. *)
Definition one_damaged_run : Analyze.frame :=
  table Analyze.DObject Analyze.DNumber
    [record "Genetic" 8 0 (Analyze.VStr "oops") (num 0)].


(** Three runs, the second without an elapsed time. *)
Definition gap_runs : Analyze.frame :=
  table Analyze.DNumber Analyze.DNumber
    [record "Genetic" 8 0 (num 1) (num 0);
     record "Genetic" 8 1 Analyze.VNaN (num 5);
     record "Genetic" 8 2 (num 3) (num 2)].

(** A store whose table has no [Intersections] column. *)
Definition no_intersections : Analyze.frame :=
  {| Analyze.dtypes := [("AlgorithmType", Analyze.DObject)];
     Analyze.rows := [[("AlgorithmType", Analyze.VStr "Genetic")]] |}.

(** The loaded table of the five runs, cut down to its Genetic records: the
    Tournament category is still declared, and has no record. *)
Definition genetic_only : Analyze.frame :=
  Eval vm_compute in
    let df := @Analyze.loaded demo_pandas five_runs in
    {| Analyze.dtypes := Analyze.dtypes df;
       Analyze.rows := firstn 3 (Analyze.rows df) |}.

Definition nothing_yet : Analyze.state :=
  {| Analyze.printed := []; Analyze.written := [] |}.

(** Three runs in which every Tournament run failed. *)
Definition tournament_fails : Analyze.frame :=
  table Analyze.DNumber Analyze.DNumber
    [record "Genetic" 8 0 (num 2) (num 0);
     record "Tournament" 8 0 (num 1) (num 2);
     record "Tournament" 8 1 (num 3) (num 1)].

(** The five runs, recorded in the opposite order. *)
Definition five_runs_reversed : Analyze.frame :=
  table Analyze.DNumber Analyze.DNumber (rev (Analyze.rows five_runs)).

(** A store without the [Complexity] column. *)
Definition no_complexity : Analyze.frame :=
  {| Analyze.dtypes :=
       [("AlgorithmType", Analyze.DObject); ("NQueens", Analyze.DNumber);
        ("ElapsedTimeSeconds", Analyze.DNumber);
        ("Intersections", Analyze.DNumber)];
     Analyze.rows :=
       [[("AlgorithmType", Analyze.VStr "Genetic"); ("NQueens", num 8);
         ("ElapsedTimeSeconds", num 2); ("Intersections", num 0)]] |}.

(** The store seen from a directory that has no [Data/summary.csv]. *)
Definition elsewhere (df : Analyze.frame) : Analyze.files :=
  {| Analyze.summary_csv := Some (Analyze.Records df);
     Analyze.cwd_summary_csv := None |}.

Definition everywhere (df : Analyze.frame) : Analyze.files :=
  {| Analyze.summary_csv := Some (Analyze.Records df);
     Analyze.cwd_summary_csv := Some (Analyze.Records df) |}.

End Demo.

(** ** Notions used to state further properties *)

Module Further.




(** The name of the file an artifact is written to. *)
Definition artifact_file (a : Analyze.artifact) : string :=
  match a with
  | Analyze.Figure file _ => file
  | Analyze.Csv file _ _ => file
  end.

(** The five figures, in the order the script saves them. *)
Definition figure_files : list string :=
  ["elapsed_time_comparison.png"; "time_complexity_comparison.png";
   "failure_rate_comparison.png"; "parameter_correlation_heatmap.png";
   "avg_elapsed_time_valid.png"].

End Further.

(** * Properties of the sweep driver *)

Section DriverFacts.
Context `{H : Run.Host}.
Import Run.

Lemma launched_run_triple (st : state) (t : Z * string * Z) :
  launched (run_triple st t) = (launched st ++ [solver_argv t])%list.
Proof.
  unfold run_triple, launch; cbn.
  destruct (subprocess_run (world st) (solver_argv t)) as [[p | e] w]; cbn;
    [destruct (truthy (stderr p)) |]; reflexivity.
Qed.

Lemma launched_sweep (grid : list (Z * string * Z)) :
  forall st, launched (sweep st grid) = (launched st ++ map solver_argv grid)%list.
Proof.
  induction grid as [| t rest IH]; intros st; cbn.
  - now rewrite app_nil_r.
  - rewrite IH, launched_run_triple, <- app_assoc. reflexivity.
Qed.

Lemma sweep_app (g1 g2 : list (Z * string * Z)) :
  forall st, sweep st (g1 ++ g2)%list = sweep (sweep st g1) g2.
Proof.
  induction g1 as [| t rest IH]; intros st; cbn; [reflexivity | apply IH].
Qed.

(** Nothing that was printed is lost by the rest of the loop. *)
Lemma printed_run_triple (st : state) (t : Z * string * Z) (s : string) :
  In s (printed st) -> In s (printed (run_triple st t)).
Proof.
  intros Hin. unfold run_triple, launch; cbn.
  destruct (subprocess_run (world st) (solver_argv t)) as [[p | e] w]; cbn;
    [destruct (truthy (stderr p)); cbn |];
    repeat (apply in_or_app; left); exact Hin.
Qed.

Lemma printed_sweep (grid : list (Z * string * Z)) (s : string) :
  forall st, In s (printed st) -> In s (printed (sweep st grid)).
Proof.
  induction grid as [| t rest IH]; intros st Hin; cbn; [exact Hin |].
  apply IH, printed_run_triple, Hin.
Qed.

Lemma launched_after_sweep (st : state) :
  launched (snd (after_sweep st)) =
  (launched st ++
   (if path_exists (world st) analysis_script
    then [["python"; analysis_script]] else []))%list.
Proof.
  unfold after_sweep, launch.
  destruct (path_exists (world st) analysis_script); cbn.
  - destruct (subprocess_run _ _) as [[p | e] w]; reflexivity.
  - now rewrite app_nil_r.
Qed.

End DriverFacts.

Section ProductFacts.
Context {A B C : Type}.

Lemma length_flat_map_const {X Y : Type} (f : X -> list Y) (m : nat) (l : list X) :
  (forall x, List.length (f x) = m) ->
  List.length (flat_map f l) = (List.length l * m)%nat.
Proof.
  intros Hf. induction l as [| x l IH]; cbn; [reflexivity |].
  rewrite length_app, Hf, IH. reflexivity.
Qed.


Lemma length_product (a : list A) (b : list B) (c : list C) :
  List.length (Run.product a b c)
  = (List.length a * List.length b * List.length c)%nat.
Proof.
  unfold Run.product.
  rewrite (length_flat_map_const _ (List.length b * List.length c)%nat).
  - lia.
  - intros x. apply length_flat_map_const. intros y. apply length_map.
Qed.


End ProductFacts.

Section DriverClaims.
Context `{H : Run.Host}.
Import Run.

(** When the executable is there, the loop runs to its end and hands over to
    line 44, whatever the solver did. *)
Lemma driver_reaches_analysis (ns : list Z) (algs : list string) (sds : list Z)
      (w : World) :
  path_exists w exe_path = true ->
  driver ns algs sds w = after_sweep (sweep (start w) (product ns algs sds)).
Proof. intros He. unfold driver. now rewrite He. Qed.


(** C3: whatever one invocation of the solver does (it cannot be launched,
    the invocation raises, or it ends with a message on its error stream),
    the loop records it in the log and goes on: every triple of the grid,
    before and after that one, is attempted. *)
Theorem run_failure_is_isolated
        (st : state) (g1 g2 : list (Z * string * Z)) (t : Z * string * Z)
        (a : attempt) (w' : World) :
  subprocess_run (world (sweep st g1)) (solver_argv t) = (a, w') ->
  let final := sweep st (g1 ++ t :: g2)%list in
  launched final = (launched st ++ map solver_argv (g1 ++ t :: g2))%list
  /\ match a with
     | Raised e => In ("Execution failed: " ++ e) (printed final)
     | Completed p =>
         In (stdout p) (printed final)
         /\ (truthy (stderr p) = true -> In ("Error: " ++ stderr p) (printed final))
     end.
Proof.
  intros Hrun final. split; [apply launched_sweep |].
  unfold final. rewrite sweep_app. cbn [sweep].
  set (st1 := sweep st g1) in *.
  assert (Hstep : run_triple st1 t =
    match a with
    | Completed p =>
        let s := {| world := w'; printed := (printed st1 ++ [banner t])%list;
                    launched := (launched st1 ++ [solver_argv t])%list |} in
        let s := print (stdout p) s in
        if truthy (stderr p) then print ("Error: " ++ stderr p) s else s
    | Raised e =>
        print ("Execution failed: " ++ e)
              {| world := w'; printed := (printed st1 ++ [banner t])%list;
                 launched := (launched st1 ++ [solver_argv t])%list |}
    end).
  { unfold run_triple, launch. cbn [world print printed launched].
    rewrite Hrun. destruct a; reflexivity. }
  destruct a as [p | e].
  - split.
    + apply printed_sweep. rewrite Hstep. cbn.
      destruct (truthy (stderr p)); cbn; rewrite !in_app_iff; cbn; tauto.
    + intros Herr. apply printed_sweep. rewrite Hstep. cbn. rewrite Herr. cbn.
      rewrite !in_app_iff. cbn. tauto.
  - apply printed_sweep. rewrite Hstep. cbn. rewrite !in_app_iff. cbn. tauto.
Qed.

(** The analysis is skipped when its script is not there, and completion is
    still reported. *)
Lemma after_sweep_skips (st : state) :
  path_exists (world st) analysis_script = false ->
  after_sweep st =
  (Finished,
   {| world := world st;
      printed := (printed st ++ ["Analysis script not found. Skipping analysis.";
                                 completion_message])%list;
      launched := launched st |}).
Proof.
  intros Hs. unfold after_sweep. rewrite Hs. unfold print; cbn.
  now rewrite <- app_assoc.
Qed.

(** The analysis is launched when its script is there; if the launch returns,
    with any exit status, completion is reported. *)
Lemma after_sweep_completed (st : state) (p : CompletedProcess) (w' : World) :
  path_exists (world st) analysis_script = true ->
  subprocess_run (world st) ["python"; analysis_script] = (Completed p, w') ->
  after_sweep st =
  (Finished,
   {| world := w';
      printed := (printed st ++ [(nl ++ "Running analysis on results...")%string;
                                 completion_message])%list;
      launched := (launched st ++ [["python"; analysis_script]])%list |}).
Proof.
  intros Hs Hrun. unfold after_sweep, launch. rewrite Hs.
  cbn [world print printed launched]. rewrite Hrun. unfold print; cbn.
  now rewrite <- app_assoc.
Qed.

(** If launching the analysis raises, nothing catches it: the driver ends
    with the exception and the last text printed is the analysis banner. *)
Lemma after_sweep_raises (st : state) (e : string) (w' : World) :
  path_exists (world st) analysis_script = true ->
  subprocess_run (world st) ["python"; analysis_script] = (Raised e, w') ->
  after_sweep st =
  (Uncaught e,
   {| world := w';
      printed := (printed st ++ [(nl ++ "Running analysis on results...")%string])%list;
      launched := (launched st ++ [["python"; analysis_script]])%list |}).
Proof.
  intros Hs Hrun. unfold after_sweep, launch. rewrite Hs.
  cbn [world print printed launched]. rewrite Hrun. reflexivity.
Qed.

End DriverClaims.

Section DriverExamples.
Import Run Demo.


(** A sweep of three triples in which the second launch raises: the failure
    is in the log and all three triples were attempted. *)
Lemma run_failure_is_isolated_witness :
  let final := @sweep (demo_host true true true) (@start (demo_host true true true) 0%nat)
                      [(4, "Genetic", 0); (4, "Genetic", 1); (4, "Tournament", 0)] in
  List.length (launched final) = 3%nat
  /\ In "Execution failed: [WinError 193] not a valid application" (printed final).
Proof.
  destruct (@run_failure_is_isolated (demo_host true true true) (@start (demo_host true true true) 0%nat)
              [(4, "Genetic", 0)] [(4, "Tournament", 0)] (4, "Genetic", 1)
              (Raised "[WinError 193] not a valid application") 2%nat eq_refl)
    as [Hl Hp].
  cbn [app] in Hl, Hp. split.
  - cbn zeta. rewrite Hl. reflexivity.
  - exact Hp.
Defined.

(** C9: on a machine where the analysis script exists but [python] cannot be
    launched, the script with its own grid ends with the uncaught exception
    of line 47; the last text it prints is the analysis banner, and line 51,
    which reports completion, is not reached. *)
Theorem analysis_launch_failure_escapes :
  let r := @main (demo_host true true false) 0%nat in
  fst r = Uncaught "[Errno 2] No such file or directory: 'python'"
  /\ last (printed (snd r)) "" = nl ++ "Running analysis on results..."
  /\ last (printed (snd r)) "" <> @completion_message.
Proof.
  cbn zeta. unfold main.
  rewrite (@driver_reaches_analysis (demo_host true true false)) by reflexivity.
  set (st := @sweep (demo_host true true false) _ _).
  rewrite (@after_sweep_raises (demo_host true true false) st
             "[Errno 2] No such file or directory: 'python'" (S (world st)))
    by reflexivity.
  cbn [fst snd printed]. rewrite last_last.
  repeat split. vm_compute. discriminate.
Qed.

End DriverExamples.

(** * Properties of the results aggregator *)

Section FrameFacts.
Import Analyze.

Lemma cell_set_cell_same (r : row) (col : string) (v : value) :
  cell (set_cell r col v) col = v.
Proof.
  induction r as [| [k w] r IH]; cbn.
  - now rewrite String.eqb_refl.
  - destruct (String.eqb k col) eqn:E; cbn; rewrite E; [reflexivity | exact IH].
Qed.

Lemma cell_set_cell_other (r : row) (col col' : string) (v : value) :
  col' <> col -> cell (set_cell r col v) col' = cell r col'.
Proof.
  intros Hne. induction r as [| [k w] r IH]; cbn.
  - apply String.eqb_neq in Hne. rewrite String.eqb_sym in Hne. now rewrite Hne.
  - destruct (String.eqb k col) eqn:E; cbn.
    + apply String.eqb_eq in E. subst k.
      assert (Hc : String.eqb col col' = false)
        by (apply String.eqb_neq; congruence).
      now rewrite Hc.
    + destruct (String.eqb k col'); [reflexivity | exact IH].
Qed.

Lemma existsb_eqb_In (x : string) (l : list string) :
  existsb (String.eqb x) l = true <-> In x l.
Proof.
  rewrite existsb_exists. split.
  - intros [y [Hin Heq]]. apply String.eqb_eq in Heq. now subst.
  - intros Hin. exists x. split; [exact Hin | apply String.eqb_refl].
Qed.

Lemma has_column_In (df : frame) (col : string) :
  has_column df col = true <-> In col (columns df).
Proof. apply existsb_eqb_In. Qed.

(** Assigning to a column that exists keeps the column names. *)
Lemma names_set_dtype_present (ds : list (string * dtype)) (col : string) (d : dtype) :
  In col (map fst ds) -> map fst (set_dtype ds col d) = map fst ds.
Proof.
  induction ds as [| [k e] ds IH]; cbn; intros Hin; [contradiction |].
  destruct (String.eqb k col) eqn:E; cbn; [reflexivity |].
  f_equal. apply IH. destruct Hin as [Hk | Hin]; [| exact Hin].
  apply String.eqb_neq in E. contradiction.
Qed.

(** Assigning to a column that does not exist adds it last. *)
Lemma names_set_dtype_absent (ds : list (string * dtype)) (col : string) (d : dtype) :
  ~ In col (map fst ds) -> map fst (set_dtype ds col d) = (map fst ds ++ [col])%list.
Proof.
  induction ds as [| [k e] ds IH]; cbn; intros Hnin; [reflexivity |].
  destruct (String.eqb k col) eqn:E; cbn.
  - apply String.eqb_eq in E. tauto.
  - f_equal. apply IH. tauto.
Qed.

Lemma NoDup_names_set_dtype (ds : list (string * dtype)) (col : string) (d : dtype) :
  NoDup (map fst ds) -> NoDup (map fst (set_dtype ds col d)).
Proof.
  intros Hnd. destruct (in_dec string_dec col (map fst ds)) as [Hin | Hnin].
  - now rewrite names_set_dtype_present.
  - rewrite names_set_dtype_absent by exact Hnin.
    apply NoDup_app; [exact Hnd | repeat constructor; cbn; tauto |].
    intros x Hx [Hc | []]. subst. contradiction.
Qed.

Lemma In_names_set_dtype (ds : list (string * dtype)) (col c : string) (d : dtype) :
  In c (map fst (set_dtype ds col d)) <-> c = col \/ In c (map fst ds).
Proof.
  destruct (in_dec string_dec col (map fst ds)) as [Hin | Hnin].
  - rewrite names_set_dtype_present by exact Hin. split; [tauto |].
    intros [-> | Hc]; assumption.
  - rewrite names_set_dtype_absent by exact Hnin. rewrite in_app_iff. cbn.
    split; [intros [Hc | [Hc | []]]; auto | intros [Hc | Hc]; auto].
Qed.

Lemma dtype_of_set_dtype_same (ds : list (string * dtype)) (col : string) (d : dtype) :
  dtype_of (set_dtype ds col d) col = Some d.
Proof.
  induction ds as [| [k e] ds IH]; cbn.
  - now rewrite String.eqb_refl.
  - destruct (String.eqb k col) eqn:E; cbn; rewrite E; [reflexivity | exact IH].
Qed.

Lemma dtype_of_set_dtype_other (ds : list (string * dtype)) (col c : string) (d : dtype) :
  c <> col -> dtype_of (set_dtype ds col d) c = dtype_of ds c.
Proof.
  intros Hne. induction ds as [| [k e] ds IH]; cbn.
  - apply String.eqb_neq in Hne. rewrite String.eqb_sym in Hne. now rewrite Hne.
  - destruct (String.eqb k col) eqn:E; cbn.
    + apply String.eqb_eq in E. subst k.
      assert (Hc : String.eqb col c = false)
        by (apply String.eqb_neq; congruence).
      now rewrite Hc.
    + destruct (String.eqb k c); [reflexivity | exact IH].
Qed.

(** With distinct column names, the dtype found for a name is the dtype
    listed with it. *)
Lemma dtype_of_In (ds : list (string * dtype)) (c : string) (d : dtype) :
  NoDup (map fst ds) -> (In (c, d) ds <-> dtype_of ds c = Some d).
Proof.
  induction ds as [| [k e] ds IH]; cbn; intros Hnd.
  - split; [contradiction | discriminate].
  - inversion Hnd as [| ? ? Hk Hnd']; subst.
    destruct (String.eqb k c) eqn:E.
    + apply String.eqb_eq in E. subst k. split.
      * intros [Heq | Hin]; [congruence |].
        exfalso. apply Hk. change c with (fst (c, d)). now apply in_map.
      * intros Heq. left. congruence.
    + apply String.eqb_neq in E. rewrite <- IH by exact Hnd'. split.
      * intros [Heq | Hin]; [congruence | exact Hin].
      * intros Hin. now right.
Qed.

End FrameFacts.

Section LoadFacts.
Context `{P : Analyze.Pandas}.
Import Analyze.

Lemma to_numeric_idem (v : value) : to_numeric (to_numeric v) = to_numeric v.
Proof.
  destruct v as [s | q | b |]; cbn; try reflexivity.
  destruct (parse_float s); reflexivity.
Qed.

Lemma to_numeric_dtype_idem (d : option dtype) :
  to_numeric_dtype (Some (to_numeric_dtype d)) = to_numeric_dtype d.
Proof. destruct d as [[| | |] |]; reflexivity. Qed.

Lemma columns_coerce_column (df : frame) (col : string) :
  columns (coerce_column df col) = columns df.
Proof.
  unfold coerce_column. destruct (has_column df col) eqn:E; [| reflexivity].
  unfold assign, columns; cbn. apply names_set_dtype_present.
  now apply has_column_In.
Qed.

Lemma has_column_coerce_column (df : frame) (col c : string) :
  has_column (coerce_column df col) c = has_column df c.
Proof. unfold has_column. now rewrite columns_coerce_column. Qed.

Lemma columns_fold_coerce (cols : list string) :
  forall df, columns (fold_left coerce_column cols df) = columns df.
Proof.
  induction cols as [| a cols IH]; intros df; cbn; [reflexivity |].
  now rewrite IH, columns_coerce_column.
Qed.

Lemma rows_fold_coerce (cols : list string) :
  forall df,
    rows (fold_left coerce_column cols df)
    = map (fun r => fold_left coerce_cell (filter (has_column df) cols) r) (rows df).
Proof.
  induction cols as [| a cols IH]; intros df; cbn.
  - symmetry. apply map_id.
  - rewrite IH.
    rewrite (filter_ext _ _ (has_column_coerce_column df a)).
    unfold coerce_column at 1. destruct (has_column df a) eqn:E; cbn.
    + rewrite map_map. reflexivity.
    + reflexivity.
Qed.

Lemma rows_coerce (df : frame) : rows (coerce df) = map (coerced df) (rows df).
Proof. apply rows_fold_coerce. Qed.

Lemma cell_fold_coerce_out (cols : list string) (c : string) :
  ~ In c cols -> forall r, cell (fold_left coerce_cell cols r) c = cell r c.
Proof.
  induction cols as [| a cols IH]; intros Hnin r; cbn; [reflexivity |].
  rewrite IH by (cbn in Hnin; tauto).
  apply cell_set_cell_other. cbn in Hnin. intros ->. tauto.
Qed.

Lemma cell_fold_coerce_in (cols : list string) (c : string) :
  In c cols ->
  forall r, cell (fold_left coerce_cell cols r) c = to_numeric (cell r c).
Proof.
  induction cols as [| a cols IH]; intros Hin r; [contradiction |].
  cbn [fold_left].
  destruct (in_dec string_dec c cols) as [Hc | Hc].
  - rewrite IH by exact Hc. unfold coerce_cell.
    destruct (string_dec c a) as [-> | Hne].
    + rewrite cell_set_cell_same. apply to_numeric_idem.
    + now rewrite cell_set_cell_other.
  - rewrite cell_fold_coerce_out by exact Hc.
    destruct Hin as [-> | Hin]; [| contradiction].
    apply cell_set_cell_same.
Qed.

(** A cell of a designated column that is in the table is coerced; every
    other cell is left as it was. *)
Lemma cell_coerced (df : frame) (r : row) (c : string) :
  cell (coerced df r) c
  = if existsb (String.eqb c) numeric_columns && has_column df c
    then to_numeric (cell r c) else cell r c.
Proof.
  unfold coerced.
  destruct (existsb (String.eqb c) numeric_columns && has_column df c) eqn:E.
  - apply andb_true_iff in E. destruct E as [E1 E2].
    apply cell_fold_coerce_in, filter_In. split; [| exact E2].
    now apply existsb_eqb_In.
  - apply cell_fold_coerce_out. intros Hin. apply filter_In in Hin.
    destruct Hin as [H1 H2]. apply existsb_eqb_In in H1.
    rewrite H1, H2 in E. discriminate.
Qed.

Lemma dtype_fold_coerce (cols : list string) (c : string) :
  forall df,
    dtype_of (dtypes (fold_left coerce_column cols df)) c
    = if existsb (String.eqb c) cols && has_column df c
      then Some (to_numeric_dtype (dtype_of (dtypes df) c))
      else dtype_of (dtypes df) c.
Proof.
  induction cols as [| a cols IH]; intros df; [reflexivity |].
  cbn [fold_left existsb]. rewrite IH, has_column_coerce_column.
  assert (Hd : dtype_of (dtypes (coerce_column df a)) c
               = if String.eqb c a && has_column df c
                 then Some (to_numeric_dtype (dtype_of (dtypes df) c))
                 else dtype_of (dtypes df) c).
  { unfold coerce_column. destruct (String.eqb c a) eqn:E.
    - apply String.eqb_eq in E. subst a.
      destruct (has_column df c); cbn; [apply dtype_of_set_dtype_same | reflexivity].
    - apply String.eqb_neq in E.
      destruct (has_column df a); cbn; [| reflexivity].
      now apply dtype_of_set_dtype_other. }
  rewrite Hd.
  destruct (String.eqb c a), (existsb (String.eqb c) cols), (has_column df c);
    cbn [andb orb]; try reflexivity.
  now rewrite to_numeric_dtype_idem.
Qed.

Lemma columns_astype_category (df : frame) (col : string) :
  has_column df col = true -> columns (astype_category df col) = columns df.
Proof.
  intros Hc. unfold astype_category, columns; cbn.
  apply names_set_dtype_present. now apply has_column_In.
Qed.

Lemma has_column_coerce_astype (df0 : frame) (c : string) :
  has_column df0 "AlgorithmType" = true ->
  has_column (coerce (astype_category df0 "AlgorithmType")) c = has_column df0 c.
Proof.
  intros Ha. unfold has_column, coerce.
  rewrite columns_fold_coerce. rewrite columns_astype_category by exact Ha.
  reflexivity.
Qed.

(** Lines 20 to 33 raise only for a column they read that is not there. *)
Lemma load_ok (df0 : frame) (st : state) :
  has_column df0 "AlgorithmType" = true ->
  has_column df0 "Intersections" = true ->
  load df0 st = (Ok (loaded df0), st).
Proof.
  intros Ha Hi. unfold load, bind, need. rewrite Ha. unfold ret at 1.
  rewrite has_column_coerce_astype, Hi by exact Ha. reflexivity.
Qed.

Lemma load_no_algorithm (df0 : frame) (st : state) :
  has_column df0 "AlgorithmType" = false ->
  load df0 st = (Stop (Uncaught "KeyError: AlgorithmType"), st).
Proof.
  intros Ha. unfold load, bind, need. rewrite Ha. reflexivity.
Qed.

Lemma load_no_intersections (df0 : frame) (st : state) :
  has_column df0 "AlgorithmType" = true ->
  has_column df0 "Intersections" = false ->
  load df0 st = (Stop (Uncaught "KeyError: Intersections"), st).
Proof.
  intros Ha Hi. unfold load, bind, need. rewrite Ha. unfold ret at 1.
  rewrite has_column_coerce_astype, Hi by exact Ha. reflexivity.
Qed.

Lemma load_inv (df0 df : frame) (st st' : state) :
  load df0 st = (Ok df, st') ->
  has_column df0 "AlgorithmType" = true
  /\ has_column df0 "Intersections" = true
  /\ df = loaded df0 /\ st' = st.
Proof.
  intros Hl. destruct (has_column df0 "AlgorithmType") eqn:Ha.
  - destruct (has_column df0 "Intersections") eqn:Hi.
    + rewrite (load_ok df0 st Ha Hi) in Hl.
      injection Hl as Hdf Hst. repeat split; congruence.
    + rewrite (load_no_intersections df0 st Ha Hi) in Hl. discriminate Hl.
  - rewrite (load_no_algorithm df0 st Ha) in Hl. discriminate Hl.
Qed.

(** The records of the loaded table, one for each record read, in order. *)
Lemma rows_loaded (df0 : frame) :
  rows (loaded df0)
  = map (fun r =>
           let r' := coerced (astype_category df0 "AlgorithmType") r in
           set_cell r' "Failure" (VBool (gt0 (cell r' "Intersections"))))
        (rows df0).
Proof.
  unfold loaded, add_failure, assign. cbn [rows]. rewrite rows_coerce, map_map.
  reflexivity.
Qed.

(** The failure flag of every loaded record is [Intersections > 0]. *)
Lemma failure_flag (df0 : frame) (r : row) :
  In r (rows (loaded df0)) ->
  cell r "Failure" = VBool (gt0 (cell r "Intersections")).
Proof.
  rewrite rows_loaded. intros Hin. apply in_map_iff in Hin.
  destruct Hin as [r0 [<- _]]. cbn zeta.
  rewrite cell_set_cell_same, cell_set_cell_other by discriminate.
  reflexivity.
Qed.

End LoadFacts.

Section MeanFacts.
Import Analyze.

Lemma numbers_flags {X : Type} (f : X -> bool) (l : list X) :
  numbers (map (fun x => VBool (f x)) l)
  = map (fun x => if f x then 1%Q else 0%Q) l.
Proof.
  induction l as [| x l IH]; cbn; [reflexivity |]. now rewrite <- IH.
Qed.

Lemma Qsum_flags {X : Type} (f : X -> bool) (l : list X) :
  (Qsum (map (fun x => if f x then 1 else 0) l)
   == inject_Z (Z.of_nat (List.length (filter f l))))%Q.
Proof.
  induction l as [| x l IH]; cbn [map Qsum fold_right filter]; [reflexivity |].
  fold (Qsum (map (fun x => if f x then 1%Q else 0%Q) l)). rewrite IH.
  destruct (f x); cbn [List.length].
  - rewrite Nat2Z.inj_succ. unfold Z.succ. rewrite inject_Z_plus. ring.
  - ring.
Qed.

(** The mean of a column of flags is the fraction of the flags that are
    set; rows are counted whether the flag is set or not. *)
Lemma mean_flags {X : Type} (f : X -> bool) (l : list X) :
  mean (map (fun x => VBool (f x)) l)
  = rate (List.length (filter f l)) (List.length l).
Proof.
  unfold mean. rewrite numbers_flags.
  destruct l as [| x l]; [reflexivity |].
  cbn [map]. unfold rate. cbn [List.length]. f_equal. apply Qred_complete.
  change ((if f x then 1%Q else 0%Q) :: map (fun x => if f x then 1%Q else 0%Q) l)
    with (map (fun x => if f x then 1%Q else 0%Q) (x :: l)).
  rewrite Qsum_flags, length_map. reflexivity.
Qed.


Lemma value_eqb_refl (v : value) : v <> VNaN -> value_eqb v v = true.
Proof.
  destruct v as [s | q | b |]; cbn; intros Hv.
  - apply String.eqb_refl.
  - unfold Q_eqb. now rewrite Z.eqb_refl, Pos.eqb_refl.
  - now destruct b.
  - congruence.
Qed.

Lemma value_eqb_eq (v w : value) : value_eqb v w = true -> v = w.
Proof.
  destruct v as [s | [a b] | x |], w as [t | [c d] | y |]; cbn;
    try discriminate.
  - intros E. apply String.eqb_eq in E. now subst.
  - unfold Q_eqb. cbn. intros E. apply andb_true_iff in E.
    destruct E as [E1 E2]. apply Z.eqb_eq in E1. apply Pos.eqb_eq in E2.
    now subst.
  - intros E. apply Bool.eqb_prop in E. now subst.
Qed.

(** A row with a missing value in one of the two columns gives no
    observation to their correlation. *)
Lemma complete_pairs_skips (ds : list (string * dtype)) (l1 l2 : list row)
      (r : row) (a b : string) :
  isna (cell r a) || isna (cell r b) = true ->
  complete_pairs {| dtypes := ds; rows := l1 ++ r :: l2 |} a b
  = complete_pairs {| dtypes := ds; rows := l1 ++ l2 |} a b.
Proof.
  intros Hna. unfold complete_pairs. cbn [rows].
  rewrite !flat_map_app. cbn [flat_map].
  destruct (cell r a) as [| x | |]; destruct (cell r b) as [| y | |];
    try reflexivity; discriminate.
Qed.

(** A row with numbers in both columns gives their pair, whatever its other
    cells are. *)
Lemma complete_pairs_keeps (ds : list (string * dtype)) (l1 l2 : list row)
      (r : row) (a b : string) (x y : Q) :
  cell r a = VNum x -> cell r b = VNum y ->
  complete_pairs {| dtypes := ds; rows := l1 ++ r :: l2 |} a b
  = (complete_pairs {| dtypes := ds; rows := l1 |} a b
     ++ (x, y) :: complete_pairs {| dtypes := ds; rows := l2 |} a b)%list.
Proof.
  intros Ha Hb. unfold complete_pairs. cbn [rows].
  rewrite flat_map_app. cbn [flat_map]. rewrite Ha, Hb. reflexivity.
Qed.

End MeanFacts.

Section RecordClaims.
Context `{P : Analyze.Pandas}.
Import Analyze.

Lemma rows_loaded_map (df0 : frame) :
  rows (loaded df0) = map (load_row df0) (rows df0).
Proof. apply rows_loaded. Qed.

(** The cells of a loaded record, other than the flag. *)
Lemma cell_load_row (df0 : frame) (r0 : row) (c : string) :
  has_column df0 "AlgorithmType" = true ->
  c <> "Failure" ->
  cell (load_row df0 r0) c
  = if existsb (String.eqb c) numeric_columns && has_column df0 c
    then to_numeric (cell r0 c) else cell r0 c.
Proof.
  intros Ha Hc. unfold load_row. cbn zeta.
  rewrite cell_set_cell_other by exact Hc.
  rewrite cell_coerced. unfold has_column at 1.
  rewrite columns_astype_category by exact Ha. reflexivity.
Qed.

Lemma flag_load_row (df0 : frame) (r0 : row) :
  cell (load_row df0 r0) "Failure"
  = VBool (gt0 (cell (load_row df0 r0) "Intersections")).
Proof.
  unfold load_row. cbn zeta.
  rewrite cell_set_cell_same, cell_set_cell_other by discriminate.
  reflexivity.
Qed.

(** The two statistics that read the flag, for any table whose flag is
    [Intersections > 0]. *)
Lemma failure_rates_flags (df : frame) :
  (forall r, In r (rows df) ->
     cell r "Failure" = VBool (gt0 (cell r "Intersections"))) ->
  failure_rates df
  = map (fun c =>
           let g := group df "AlgorithmType" c in
           (c, rate (List.length
                       (filter (fun r => gt0 (cell r "Intersections")) g))
                    (List.length g)))
        (categories_of df "AlgorithmType").
Proof.
  intros Hflag. unfold failure_rates, groupby_mean. apply map_ext. intros c.
  cbn zeta. f_equal. rewrite <- mean_flags. f_equal. apply map_ext_in.
  intros r Hr. apply Hflag.
  unfold group in Hr. apply filter_In in Hr. tauto.
Qed.

Lemma df_valid_flags (df : frame) :
  (forall r, In r (rows df) ->
     cell r "Failure" = VBool (gt0 (cell r "Intersections"))) ->
  rows (df_valid df)
  = filter (fun r => negb (gt0 (cell r "Intersections"))) (rows df).
Proof.
  intros Hflag. unfold df_valid, where_false. cbn [rows]. apply filter_ext_in.
  intros r Hr. rewrite (Hflag r Hr). cbn [value_eqb].
  now destruct (gt0 (cell r "Intersections")).
Qed.

Lemma failure_rates_loaded (df0 : frame) :
  failure_rates (loaded df0)
  = map (fun c =>
           let g := group (loaded df0) "AlgorithmType" c in
           (c, rate (List.length
                       (filter (fun r => gt0 (cell r "Intersections")) g))
                    (List.length g)))
        (categories_of (loaded df0) "AlgorithmType").
Proof. apply failure_rates_flags. intros r. apply failure_flag. Qed.

Lemma df_valid_loaded (df0 : frame) :
  rows (df_valid (loaded df0))
  = filter (fun r => negb (gt0 (cell r "Intersections"))) (rows (loaded df0)).
Proof. apply df_valid_flags. intros r. apply failure_flag. Qed.

(** C4: in the table the statistics are computed from, the failure flag of
    every record is [Intersections > 0] (false for 0, true for 3); the
    failure rate of a group is the fraction of its records with
    [Intersections > 0], and the valid runs are the records without. *)
Theorem failure_flag_is_positive_intersections
        (df0 df : frame) (st st' : state) :
  load df0 st = (Ok df, st') ->
  (forall r, In r (rows df) ->
     cell r "Failure" = VBool (gt0 (cell r "Intersections"))
     /\ (cell r "Intersections" = VNum 0 -> cell r "Failure" = VBool false)
     /\ (cell r "Intersections" = VNum 3 -> cell r "Failure" = VBool true))
  /\ failure_rates df
     = map (fun c =>
              let g := group df "AlgorithmType" c in
              (c, rate (List.length
                          (filter (fun r => gt0 (cell r "Intersections")) g))
                       (List.length g)))
           (categories_of df "AlgorithmType")
  /\ rows (df_valid df)
     = filter (fun r => negb (gt0 (cell r "Intersections"))) (rows df).
Proof.
  intros Hl. apply load_inv in Hl. destruct Hl as [_ [_ [-> _]]].
  split; [| split].
  - intros r Hr. pose proof (failure_flag df0 r Hr) as Hf.
    split; [exact Hf |]. split; intros Hi; rewrite Hf, Hi; reflexivity.
  - apply failure_rates_loaded.
  - apply df_valid_loaded.
Qed.


End RecordClaims.

Section ColumnFacts.
Import Analyze.

Lemma NoDup_names_filter (p : string * dtype -> bool) (ds : list (string * dtype)) :
  NoDup (map fst ds) -> NoDup (map fst (filter p ds)).
Proof.
  induction ds as [| [k d] ds IH]; cbn; intros Hnd; [constructor |].
  inversion Hnd as [| ? ? Hk Hnd']; subst.
  destruct (p (k, d)); cbn; [| now apply IH].
  constructor; [| now apply IH].
  intros Hin. apply Hk. apply in_map_iff in Hin.
  destruct Hin as [[k' d'] [Hfst Hin]]. cbn in Hfst. subst k'.
  apply filter_In in Hin. destruct Hin as [Hin _].
  change k with (fst (k, d')). now apply in_map.
Qed.

Lemma In_remove_first (x c : string) (l : list string) :
  NoDup l -> (In c (remove_first x l) <-> c <> x /\ In c l).
Proof.
  induction l as [| y l IH]; cbn; intros Hnd; [tauto |].
  inversion Hnd as [| ? ? Hy Hnd']; subst.
  destruct (String.eqb y x) eqn:E.
  - apply String.eqb_eq in E. subst y. split.
    + intros Hin. split; [intros -> | now right]. contradiction.
    + intros [Hc [Heq | Hin]]; [congruence | exact Hin].
  - apply String.eqb_neq in E. cbn. rewrite IH by exact Hnd'. split.
    + intros [Heq | [Hc Hin]]; [subst; split; [exact E | now left] |].
      split; [exact Hc | now right].
    + intros [Hc [Heq | Hin]]; [now left | right; tauto].
Qed.

(** With distinct column names, the numeric columns are the names whose
    dtype is a number. *)
Lemma In_select_number (df : frame) (c : string) :
  NoDup (columns df) ->
  (In c (select_number df) <-> dtype_of (dtypes df) c = Some DNumber).
Proof.
  intros Hnd. unfold select_number.
  rewrite <- (dtype_of_In (dtypes df) c DNumber Hnd). rewrite in_map_iff. split.
  - intros [[k d] [Hfst Hin]]. cbn in Hfst. subst k.
    apply filter_In in Hin. destruct Hin as [Hin Hd]. cbn in Hd.
    destruct d; try discriminate. exact Hin.
  - intros Hin. exists (c, DNumber). split; [reflexivity |].
    apply filter_In. split; [exact Hin | reflexivity].
Qed.

Lemma In_numeric_cols (df : frame) (c : string) :
  NoDup (columns df) ->
  (In c (numeric_cols df) <-> c <> "Seed" /\ dtype_of (dtypes df) c = Some DNumber).
Proof.
  intros Hnd. unfold numeric_cols.
  destruct (existsb (String.eqb "Seed") (select_number df)) eqn:E.
  - rewrite In_remove_first by (apply NoDup_names_filter; exact Hnd).
    now rewrite In_select_number.
  - rewrite In_select_number by exact Hnd. split; [| tauto].
    intros Hd. split; [| exact Hd]. intros ->.
    apply (In_select_number df "Seed" Hnd) in Hd.
    apply existsb_eqb_In in Hd. congruence.
Qed.

(** What the correlation of two columns is computed from depends on the
    records only. *)
Lemma complete_pairs_rows (df : frame) (l1 l2 : list row) (r : row) (a b : string) :
  rows df = (l1 ++ r :: l2)%list ->
  isna (cell r a) || isna (cell r b) = true ->
  complete_pairs df a b
  = complete_pairs {| dtypes := dtypes df; rows := l1 ++ l2 |} a b.
Proof.
  intros Hrows Hna.
  rewrite <- (complete_pairs_skips (dtypes df) l1 l2 r a b Hna).
  unfold complete_pairs. cbn [rows]. now rewrite Hrows.
Qed.

End ColumnFacts.

Section TableClaims.
Context `{P : Analyze.Pandas}.
Import Analyze.

Lemma NoDup_columns_assign (df : frame) (col : string) (d : dtype)
      (f : row -> value) :
  NoDup (columns df) -> NoDup (columns (assign df col d f)).
Proof. intros Hnd. unfold assign, columns. cbn [dtypes]. now apply NoDup_names_set_dtype. Qed.

Lemma columns_loaded (df0 : frame) :
  has_column df0 "AlgorithmType" = true ->
  NoDup (columns df0) -> NoDup (columns (loaded df0)).
Proof.
  intros Ha Hnd. unfold loaded, add_failure. apply NoDup_columns_assign.
  unfold coerce. rewrite columns_fold_coerce.
  rewrite columns_astype_category by exact Ha. exact Hnd.
Qed.

Lemma dtype_loaded (df0 : frame) (c : string) :
  c <> "Failure" ->
  dtype_of (dtypes (loaded df0)) c
  = let df1 := astype_category df0 "AlgorithmType" in
    if existsb (String.eqb c) numeric_columns && has_column df1 c
    then Some (to_numeric_dtype (dtype_of (dtypes df1) c))
    else dtype_of (dtypes df1) c.
Proof.
  intros Hc. unfold loaded, add_failure, assign. cbn [dtypes].
  rewrite dtype_of_set_dtype_other by exact Hc.
  unfold coerce. apply dtype_fold_coerce.
Qed.

Lemma category_loaded (df0 : frame) :
  dtype_of (dtypes (loaded df0)) "AlgorithmType"
  = Some (DCategory (infer_categories (series df0 "AlgorithmType"))).
Proof.
  rewrite dtype_loaded by discriminate. cbn zeta.
  replace (existsb (String.eqb "AlgorithmType") numeric_columns) with false
    by reflexivity.
  cbn [andb]. unfold astype_category. cbn [dtypes].
  apply dtype_of_set_dtype_same.
Qed.

Lemma In_insert_sorted (v x : value) (l : list value) :
  In x (insert_sorted v l) <-> x = v \/ In x l.
Proof.
  induction l as [| w l IH]; cbn; [intuition congruence |].
  destruct (value_leb v w); cbn; [intuition congruence |].
  rewrite IH. intuition congruence.
Qed.

Lemma In_sort_values (x : value) (l : list value) :
  In x (sort_values l) <-> In x l.
Proof.
  induction l as [| v l IH]; cbn; [tauto |].
  rewrite In_insert_sorted, IH. intuition congruence.
Qed.

Lemma In_unique (x : value) (l : list value) : In x (unique l) -> In x l.
Proof.
  induction l as [| v l IH]; cbn; [tauto |].
  intros [Hx | Hx]; [now left |].
  apply filter_In in Hx. right. apply IH. tauto.
Qed.

(** In the table of the script itself the categories come from the data, so
    each of them has a record: there a group without records does not
    occur. *)
Lemma own_categories_have_records (df0 : frame) (c : value) :
  has_column df0 "AlgorithmType" = true ->
  In c (infer_categories (series df0 "AlgorithmType")) ->
  group (loaded df0) "AlgorithmType" c <> [].
Proof.
  intros Ha Hc. unfold infer_categories in Hc.
  apply In_sort_values, In_unique, filter_In in Hc.
  destruct Hc as [Hin Hna]. unfold series in Hin. apply in_map_iff in Hin.
  destruct Hin as [r0 [Hcell Hr0]].
  assert (Hg : In (load_row df0 r0) (group (loaded df0) "AlgorithmType" c)).
  { apply filter_In. split.
    - rewrite rows_loaded_map. apply in_map. exact Hr0.
    - rewrite cell_load_row by (exact Ha || discriminate).
      replace (existsb (String.eqb "AlgorithmType") numeric_columns) with false
        by reflexivity.
      cbn [andb]. rewrite Hcell. apply value_eqb_refl.
      intros ->. discriminate Hna. }
  intros Hnil. rewrite Hnil in Hg. contradiction.
Qed.

End TableClaims.

Section ExportFacts.
Import Analyze.

Lemma firstn_positions {X : Type} (d : X) (l : list X) :
  forall n, firstn n l = map (fun i => nth i l d) (seq 0 (Nat.min n (List.length l))).
Proof.
  induction l as [| x l IH]; intros n.
  - rewrite firstn_nil, Nat.min_0_r. reflexivity.
  - destruct n as [| n]; [reflexivity |].
    cbn [firstn List.length Nat.min seq map nth]. f_equal.
    rewrite <- seq_shift, map_map. apply IH.
Qed.

Lemma skipn_positions {X : Type} (d : X) (l : list X) :
  forall k, skipn k l = map (fun i => nth i l d) (seq k (List.length l - k)).
Proof.
  induction l as [| x l IH]; intros k.
  - rewrite skipn_nil. reflexivity.
  - destruct k as [| k].
    + cbn [skipn List.length Nat.sub seq map nth]. f_equal.
      rewrite <- seq_shift, map_map. rewrite (IH 0%nat) at 1.
      rewrite Nat.sub_0_r. reflexivity.
    + cbn [skipn List.length Nat.sub]. rewrite (IH k).
      rewrite <- seq_shift, map_map. reflexivity.
Qed.

Lemma shared_element_repeats {X : Type} (x : X) (l1 l2 : list X) :
  In x l1 -> In x l2 -> ~ NoDup (l1 ++ l2).
Proof.
  induction l1 as [| a l1 IH]; intros H1 H2 Hnd; [contradiction |].
  cbn in Hnd. inversion Hnd as [| ? ? Ha Hnd']; subst.
  destruct H1 as [-> | H1].
  - apply Ha. apply in_or_app. now right.
  - now apply IH.
Qed.

(** The positions of the table the reduced export takes its lines from. *)
Lemma reduced_positions_distinct (M : nat) :
  (10 <= M)%nat ->
  NoDup (seq 0 (Nat.min 5 M) ++ seq (M - 5) (Nat.min 5 M)).
Proof.
  intros HM. apply NoDup_app; try apply seq_NoDup.
  intros i H1 H2. apply in_seq in H1. apply in_seq in H2. lia.
Qed.

Lemma reduced_positions_overlap (M : nat) :
  (0 < M < 10)%nat ->
  ~ NoDup (seq 0 (Nat.min 5 M) ++ seq (M - 5) (Nat.min 5 M)).
Proof.
  intros HM. apply (shared_element_repeats (M - 5)%nat); apply in_seq; lia.
Qed.

(** C1 (as the code has it): the reduced export holds the first
    [min 5 M] records of the table followed by its last [min 5 M] records,
    in load order, [2 * min 5 M] lines in all.  With ten records or more no
    record is taken twice; with fewer (and at least one) the records that
    are both among the first five and among the last five are written
    twice. *)
Theorem reduced_export_is_head_then_tail (fs : files) (df : frame) (st : state) :
  cwd_summary_csv fs = Some (Records df) ->
  let M := List.length (rows df) in
  let positions := (seq 0 (Nat.min 5 M) ++ seq (M - 5) (Nat.min 5 M))%list in
  let out := rows (partial_df df) in
  export_reduced fs st
  = (Ok tt,
     {| printed := printed st ++ ["Exported summaryReduced.csv successfully."];
        written := written st ++
                   [Csv reduced_file (columns df)
                        (map (fun r => map (cell r) (columns df)) out)] |})
  /\ out = (firstn 5 (rows df) ++ skipn (M - 5) (rows df))%list
  /\ out = map (fun i => nth i (rows df) []) positions
  /\ List.length out = (2 * Nat.min 5 M)%nat
  /\ ((10 <= M)%nat -> NoDup positions)
  /\ ((0 < M < 10)%nat -> ~ NoDup positions).
Proof.
  intros Hfs M positions out.
  assert (Hout : out = map (fun i => nth i (rows df) []) positions).
  { unfold out, positions, partial_df, concat, head, tail. cbn [rows].
    rewrite map_app, (@firstn_positions row [] (rows df) 5).
    rewrite (@skipn_positions row [] (rows df) (List.length (rows df) - 5)).
    fold M. replace (M - (M - 5))%nat with (Nat.min 5 M) by lia.
    reflexivity. }
  split; [| split; [reflexivity | split; [exact Hout | split; [| split]]]].
  - unfold export_reduced, bind. rewrite Hfs. reflexivity.
  - rewrite Hout, length_map. unfold positions.
    rewrite length_app, !length_seq. lia.
  - apply reduced_positions_distinct.
  - apply reduced_positions_overlap.
Qed.

End ExportFacts.

Section FatalClaims.
Import Analyze.

Lemma analyze_missing_store `{P : Pandas} (fs : files) :
  summary_csv fs = None ->
  analyze fs
  = (Exited 1,
     {| printed := ["Error: summary.csv not found in Data folder."];
        written := [] |}).
Proof.
  intros Hs. unfold analyze, analysis, bind. rewrite Hs. reflexivity.
Qed.

Lemma analyze_empty_store `{P : Pandas} (fs : files) :
  summary_csv fs = Some EmptyFile ->
  analyze fs = (Uncaught "EmptyDataError", {| printed := []; written := [] |}).
Proof.
  intros Hs. unfold analyze, analysis, bind. rewrite Hs. reflexivity.
Qed.

Lemma driver_missing_executable `{H : Run.Host}
      (ns : list Z) (algs : list string) (sds : list Z) (w : Run.World) :
  Run.path_exists w Run.exe_path = false ->
  Run.driver ns algs sds w
  = (Exited 1,
     {| Run.world := w;
        Run.printed := ["Error: Executable not found at " ++ Run.exe_path];
        Run.launched := [] |}).
Proof.
  intros He. unfold Run.driver. rewrite He. reflexivity.
Qed.

(** C8 (as the code has it): the driver without its executable prints a
    diagnostic and exits with status 1 before launching anything; the
    aggregator without its record store prints a diagnostic and exits with
    status 1, and with a store that has nothing to parse it ends with the
    uncaught [EmptyDataError], status 1; in both cases no artifact has been
    written. *)
Theorem configuration_errors_fail_fast :
  (forall (H : Run.Host) (ns : list Z) (algs : list string) (sds : list Z)
          (w : Run.World),
      Run.path_exists w Run.exe_path = false ->
      let r := Run.driver ns algs sds w in
      exit_status (fst r) = 1
      /\ Run.printed (snd r) = ["Error: Executable not found at " ++ Run.exe_path]
      /\ Run.launched (snd r) = [])
  /\ (forall (P : Pandas) (fs : files),
        summary_csv fs = None ->
        let r := analyze fs in
        fst r = Exited 1
        /\ printed (snd r) = ["Error: summary.csv not found in Data folder."]
        /\ written (snd r) = [])
  /\ (forall (P : Pandas) (fs : files),
        summary_csv fs = Some EmptyFile ->
        let r := analyze fs in
        fst r = Uncaught "EmptyDataError"
        /\ exit_status (fst r) = 1
        /\ written (snd r) = []).
Proof.
  split; [| split].
  - intros H ns algs sds w He r. unfold r.
    rewrite driver_missing_executable by exact He. repeat split.
  - intros P fs Hs r. unfold r. rewrite analyze_missing_store by exact Hs.
    repeat split.
  - intros P fs Hs r. unfold r. rewrite analyze_empty_store by exact Hs.
    repeat split.
Qed.

End FatalClaims.

(** * The claims on the example machines and tables *)

Section Examples.
Import Analyze Demo.

Lemma configuration_errors_fail_fast_witness :
  Run.launched (snd (@Run.main (demo_host false true true) 0%nat)) = []
  /\ written (snd (@analyze demo_pandas
                     {| summary_csv := None; cwd_summary_csv := None |})) = []
  /\ written (snd (@analyze demo_pandas
                     {| summary_csv := Some EmptyFile;
                        cwd_summary_csv := Some EmptyFile |})) = [].
Proof.
  destruct configuration_errors_fail_fast as [Hexe [Hnone Hempty]].
  split; [| split].
  - exact (proj2 (proj2 (Hexe (demo_host false true true) Run.n_values
                              Run.algorithms Run.seeds 0%nat eq_refl))).
  - exact (proj2 (proj2 (Hnone demo_pandas
                           {| summary_csv := None; cwd_summary_csv := None |}
                           eq_refl))).
  - exact (proj2 (proj2 (Hempty demo_pandas
                           {| summary_csv := Some EmptyFile;
                              cwd_summary_csv := Some EmptyFile |}
                           eq_refl))).
Defined.

(** C8, against the claim as stated: a store that is there and has a record,
    but no [Intersections] column, ends the aggregator with an uncaught
    [KeyError] before any artifact is written. *)
Lemma missing_column_is_fatal :
  let fs := everywhere no_intersections in
  summary_csv fs = Some (Records no_intersections)
  /\ List.length (rows no_intersections) = 1%nat
  /\ fatal (fst (@analyze demo_pandas fs)) = true
  /\ @analyze demo_pandas fs
     = (Uncaught "KeyError: Intersections", {| printed := []; written := [] |}).
Proof. vm_compute. repeat split. Qed.

(** C1, against the claim as stated: for a table of seven records the
    reduced export has ten lines, and the record at position 2 is written
    twice, as lines 2 and 5. *)
Lemma reduced_export_of_seven_has_ten_lines :
  let body := csv_body (partial_df seven_runs) in
  List.length (rows seven_runs) = 7%nat
  /\ In (Csv reduced_file (columns seven_runs) body)
        (written (snd (@analyze demo_pandas (everywhere seven_runs))))
  /\ List.length body = 10%nat
  /\ nth_error body 2 = nth_error body 5
  /\ ~ NoDup body.
Proof.
  cbn zeta. split; [reflexivity |]. split.
  - vm_compute. do 5 right. left. reflexivity.
  - split; [reflexivity |]. split; [reflexivity |].
    intros Hnd. rewrite NoDup_nth_error in Hnd.
    specialize (Hnd 2%nat 5%nat). 
    assert (H25 : 2%nat = 5%nat) by (apply Hnd; [vm_compute; lia | reflexivity]).
    discriminate H25.
Qed.

Lemma reduced_export_is_head_then_tail_witness :
  List.length (rows (partial_df seven_runs)) = 10%nat
  /\ ~ NoDup (seq 0 5 ++ seq 2 5).
Proof.
  destruct (reduced_export_is_head_then_tail (everywhere seven_runs) seven_runs
              nothing_yet eq_refl) as [_ [_ [_ [Hlen [_ Hdup]]]]].
  split; [exact Hlen |].
  apply Hdup. vm_compute. split; lia.
Defined.

End Examples.

Section TableExamples.
Import Analyze Demo.

(** The example of the specification: the Genetic runs fail once in three,
    the Tournament runs once in two, and the valid runs are those without
    intersections. *)
Lemma failure_flag_is_positive_intersections_witness :
  failure_rates (@loaded demo_pandas five_runs)
  = [(VStr "Genetic", VNum (1 # 3)); (VStr "Tournament", VNum (1 # 2))]
  /\ List.length (rows (df_valid (@loaded demo_pandas five_runs))) = 3%nat.
Proof.
  destruct (@failure_flag_is_positive_intersections demo_pandas five_runs
              (@loaded demo_pandas five_runs) nothing_yet nothing_yet
              ltac:(vm_compute; reflexivity))
    as [_ [Hrates Hvalid]].
  split.
  - rewrite Hrates. vm_compute. reflexivity.
  - rewrite Hvalid. vm_compute. reflexivity.
Defined.

Lemma five_runs_columns_distinct : NoDup (columns five_runs).
Proof.
  cbn. repeat constructor; cbn; intros Hin;
    repeat (destruct Hin as [Hin | Hin]; [discriminate Hin |]); exact Hin.
Defined.


End TableExamples.

(** * Further properties of the sweep driver *)

Section DriverEndings.
Context `{H : Run.Host}.
Import Run.

(** X1: with the executable in place, the driver ends normally, with the
    completion message as its last line, whenever the analysis is skipped
    or its process returns: neither what the solver runs did nor the exit
    status of the analysis changes how the driver ends. *)
Theorem driver_finishes_whatever_the_runs_did
        (ns : list Z) (algs : list string) (sds : list Z) (w : World) :
  path_exists w exe_path = true ->
  let st := sweep (start w) (product ns algs sds) in
  (path_exists (world st) analysis_script = false
   \/ exists p w', path_exists (world st) analysis_script = true
                   /\ subprocess_run (world st) ["python"; analysis_script]
                      = (Completed p, w')) ->
  let r := driver ns algs sds w in
  fst r = Finished
  /\ exit_status (fst r) = 0
  /\ last (printed (snd r)) "" = completion_message.
Proof.
  intros He st Hcase r. unfold r.
  rewrite driver_reaches_analysis by exact He. fold st.
  destruct Hcase as [Hs | [p [w' [Hs Hrun]]]].
  - rewrite (after_sweep_skips st Hs). cbn [fst snd printed exit_status].
    split; [reflexivity |]. split; [reflexivity |].
    change [("Analysis script not found. Skipping analysis.")%string;
            @completion_message]
      with (["Analysis script not found. Skipping analysis."]
            ++ [@completion_message])%list.
    rewrite app_assoc. apply last_last.
  - rewrite (after_sweep_completed st p w' Hs Hrun).
    cbn [fst snd printed exit_status].
    split; [reflexivity |]. split; [reflexivity |].
    change [(nl ++ "Running analysis on results...")%string;
            @completion_message]
      with ([(nl ++ "Running analysis on results...")%string]
            ++ [@completion_message])%list.
    rewrite app_assoc. apply last_last.
Qed.

(** X2: an empty sequence of sizes, of algorithms or of seeds makes an empty
    grid: the driver launches no solver, prints no banner, and goes straight
    to the analysis. *)
Theorem empty_grid_launches_no_solver
        (ns : list Z) (algs : list string) (sds : list Z) (w : World) :
  path_exists w exe_path = true ->
  ns = [] \/ algs = [] \/ sds = [] ->
  product ns algs sds = []
  /\ driver ns algs sds w = after_sweep (start w)
  /\ launched (snd (driver ns algs sds w))
     = (if path_exists w analysis_script
        then [["python"; analysis_script]] else []).
Proof.
  intros He Hempty.
  assert (Hp : product ns algs sds = []).
  { unfold product. destruct Hempty as [-> | [-> | ->]].
    - reflexivity.
    - induction ns as [| n ns IH]; [reflexivity | exact IH].
    - induction ns as [| n ns IH]; [reflexivity |].
      cbn [flat_map]. rewrite IH, app_nil_r.
      clear IH. induction algs as [| a algs IH]; [reflexivity | exact IH]. }
  split; [exact Hp |].
  assert (Hd : driver ns algs sds w = after_sweep (start w)).
  { rewrite driver_reaches_analysis by exact He. rewrite Hp. reflexivity. }
  split; [exact Hd |].
  rewrite Hd, launched_after_sweep. reflexivity.
Qed.

End DriverEndings.

Section GridFacts.
Context {A B C : Type}.

Lemma In_product (a : list A) (b : list B) (c : list C) (x : A) (y : B) (z : C) :
  In (x, y, z) (Run.product a b c) <-> In x a /\ In y b /\ In z c.
Proof.
  unfold Run.product. rewrite in_flat_map. split.
  - intros [x' [Hx Hin]]. apply in_flat_map in Hin.
    destruct Hin as [y' [Hy Hin]]. apply in_map_iff in Hin.
    destruct Hin as [z' [Heq Hz]]. inversion Heq; subst. tauto.
  - intros [Hx [Hy Hz]]. exists x. split; [exact Hx |].
    apply in_flat_map. exists y. split; [exact Hy |].
    apply in_map_iff. exists z. split; [reflexivity | exact Hz].
Qed.

Lemma NoDup_map_injective {X Y : Type} (f : X -> Y) (l : list X) :
  (forall u v, f u = f v -> u = v) -> NoDup l -> NoDup (map f l).
Proof.
  intros Hf Hl. induction Hl as [| u l Hu Hl IH]; cbn; constructor.
  - intros Hin. apply in_map_iff in Hin. destruct Hin as [v [Heq Hv]].
    apply Hf in Heq. subst. contradiction.
  - exact IH.
Qed.

Lemma NoDup_block (x : A) (b : list B) (c : list C) :
  NoDup b -> NoDup c ->
  NoDup (flat_map (fun y => map (fun z => (x, y, z)) c) b).
Proof.
  intros Hb Hc. induction Hb as [| y b Hy Hb IH]; cbn; [constructor |].
  apply NoDup_app.
  - apply NoDup_map_injective; [| exact Hc].
    intros z z' Heq. inversion Heq. reflexivity.
  - exact IH.
  - intros t Ht Ht'. apply in_map_iff in Ht. destruct Ht as [z [<- _]].
    apply in_flat_map in Ht'. destruct Ht' as [y' [Hy' Hin]].
    apply in_map_iff in Hin. destruct Hin as [z' [Heq _]].
    inversion Heq; subst. contradiction.
Qed.

(** X3: the grid holds exactly the triples of a size, an algorithm and a
    seed of the three sequences, and when no sequence repeats a value no
    triple occurs twice: no run is repeated. *)
Theorem grid_has_each_triple_once (a : list A) (b : list B) (c : list C) :
  NoDup a -> NoDup b -> NoDup c ->
  NoDup (Run.product a b c)
  /\ forall x y z, In (x, y, z) (Run.product a b c) <-> In x a /\ In y b /\ In z c.
Proof.
  intros Ha Hb Hc. split; [| intros x y z; apply In_product].
  unfold Run.product. induction Ha as [| x a Hx Ha IH]; cbn; [constructor |].
  apply NoDup_app.
  - apply NoDup_block; assumption.
  - exact IH.
  - intros [[x' y'] z'] Ht Ht'.
    apply in_flat_map in Ht. destruct Ht as [y [_ Hin]].
    apply in_map_iff in Hin. destruct Hin as [z [Heq _]].
    inversion Heq; subst.
    change (In (x', y', z') (Run.product a b c)) in Ht'.
    apply In_product in Ht'. tauto.
Qed.

End GridFacts.

Section StatusBlind.
Variable H : Run.Host.
Import Run Further.





End StatusBlind.

Section DriverMoreExamples.
Import Run Demo.

(** On the example machine the second solver run cannot be launched, the
    third fails, and the analysis exits with status 1: the driver still
    ends normally. *)
Lemma driver_finishes_whatever_the_runs_did_witness :
  exit_status (fst (@main (demo_host true true true) 0%nat)) = 0.
Proof.
  set (st := @sweep (demo_host true true true)
                    (@start (demo_host true true true) 0%nat)
                    (product n_values algorithms seeds)).
  assert (Hcase :
    @path_exists (demo_host true true true) (world st)
                 (@analysis_script (demo_host true true true)) = false
    \/ exists p w',
         @path_exists (demo_host true true true) (world st)
                      (@analysis_script (demo_host true true true)) = true
         /\ @subprocess_run (demo_host true true true) (world st)
              ["python"; @analysis_script (demo_host true true true)]
            = (Completed p, w')).
  { right. exists {| returncode := 1; stdout := ""; stderr := "" |}.
    exists (S (world st)). split; reflexivity. }
  exact (proj1 (proj2 (@driver_finishes_whatever_the_runs_did
                         (demo_host true true true)
                         n_values algorithms seeds 0%nat eq_refl Hcase))).
Defined.

Lemma empty_grid_launches_no_solver_witness :
  launched (snd (@driver (demo_host true true true) [] algorithms seeds 0%nat))
  = [["python"; "/repo/analyze_nqueens.py"]].
Proof.
  destruct (@empty_grid_launches_no_solver (demo_host true true true)
              [] algorithms seeds 0%nat eq_refl (or_introl eq_refl))
    as [_ [_ Hl]].
  rewrite Hl. reflexivity.
Defined.

Lemma range_NoDup (lo hi : Z) : NoDup (range lo hi).
Proof.
  unfold range. apply NoDup_map_injective; [| apply seq_NoDup].
  intros u v Heq. lia.
Defined.

(** The grid of the script itself: 2800 runs, none of them twice. *)
Lemma grid_has_each_triple_once_witness :
  NoDup (product n_values algorithms seeds)
  /\ List.length (product n_values algorithms seeds) = 2800%nat.
Proof.
  split.
  - apply grid_has_each_triple_once.
    + unfold n_values. repeat constructor; cbn; intros Hin;
        repeat (destruct Hin as [Hin | Hin]; [discriminate Hin |]); exact Hin.
    + unfold algorithms. repeat constructor; cbn; intros Hin;
        repeat (destruct Hin as [Hin | Hin]; [discriminate Hin |]); exact Hin.
    + apply range_NoDup.
  - rewrite length_product. reflexivity.
Defined.

End DriverMoreExamples.

(** * Further properties of the results aggregator *)

Section ValueFacts.
Import Analyze.


Lemma In_unique_complete (x : value) (l : list value) :
  In x l -> In x (unique l).
Proof.
  induction l as [| v l IH]; cbn; [tauto |].
  intros [-> | Hx]; [now left |].
  destruct (value_eqb v x) eqn:E.
  - left. now apply value_eqb_eq.
  - right. apply filter_In. split; [now apply IH | now rewrite E].
Qed.

Lemma NoDup_unique (l : list value) :
  (forall v, In v l -> v <> VNaN) -> NoDup (unique l).
Proof.
  induction l as [| v l IH]; cbn; intros Hl; [constructor |].
  constructor.
  - intros Hin. apply filter_In in Hin. destruct Hin as [_ Hne].
    rewrite value_eqb_refl in Hne by (apply Hl; now left). discriminate.
  - apply NoDup_filter, IH. intros w Hw. apply Hl. now right.
Qed.

Lemma NoDup_insert_sorted (v : value) (l : list value) :
  ~ In v l -> NoDup l -> NoDup (insert_sorted v l).
Proof.
  induction l as [| w l IH]; cbn; intros Hv Hl.
  - constructor; [tauto | constructor].
  - inversion Hl as [| ? ? Hw Hl']; subst.
    destruct (value_leb v w).
    + constructor; [cbn; tauto | exact Hl].
    + constructor.
      * rewrite In_insert_sorted. intros [-> | Hin]; tauto.
      * apply IH; tauto.
Qed.

Lemma NoDup_sort_values (l : list value) : NoDup l -> NoDup (sort_values l).
Proof.
  induction 1 as [| v l Hv Hl IH]; cbn; [constructor |].
  apply NoDup_insert_sorted; [| exact IH]. now rewrite In_sort_values.
Qed.

(** The categories [astype('category')] gives a column are its distinct
    values that are not missing, each of them once. *)
Lemma categories_are_the_distinct_labels (vs : list value) :
  NoDup (infer_categories vs)
  /\ forall c, In c (infer_categories vs) <-> In c vs /\ c <> VNaN.
Proof.
  unfold infer_categories. split.
  - apply NoDup_sort_values, NoDup_unique. intros v Hv.
    apply filter_In in Hv. destruct Hv as [_ Hv]. intros ->. discriminate.
  - intros c. rewrite In_sort_values. split.
    + intros Hc. apply In_unique, filter_In in Hc. destruct Hc as [Hc Hna].
      split; [exact Hc | intros ->; discriminate].
    + intros [Hc Hna]. apply In_unique_complete, filter_In.
      split; [exact Hc |]. destruct c; try reflexivity. congruence.
Qed.

End ValueFacts.

Section LoadedTable.
Context `{P : Analyze.Pandas}.
Import Analyze.

Lemma keys_groupby_mean (df : frame) (key col : string) :
  map fst (groupby_mean df key col) = categories_of df key.
Proof.
  unfold groupby_mean. rewrite map_map. cbn [fst]. apply map_id.
Qed.

Lemma categories_df_valid (df : frame) (key : string) :
  dtype_of (dtypes df) key <> None ->
  (forall cs, dtype_of (dtypes df) key = Some (DCategory cs) ->
              categories_of (df_valid df) key = cs /\ categories_of df key = cs).
Proof.
  intros _ cs Hd. unfold categories_of, df_valid, where_false. cbn [dtypes].
  rewrite Hd. split; reflexivity.
Qed.

(** X5: the failure rates have exactly one line for each algorithm label
    that occurs in the store (a missing label gives no line), and the mean
    elapsed times of the valid runs have the same lines in the same
    order. *)
Theorem one_line_per_algorithm_label (df0 df : frame) (st st' : state) :
  load df0 st = (Ok df, st') ->
  let keys := map fst (failure_rates df) in
  NoDup keys
  /\ (forall c, In c keys
                <-> c <> VNaN
                    /\ exists r0, In r0 (rows df0) /\ cell r0 "AlgorithmType" = c)
  /\ map fst (avg_elapsed df) = keys.
Proof.
  intros Hl keys. apply load_inv in Hl. destruct Hl as [_ [_ [-> _]]].
  pose proof (category_loaded df0) as Hcat.
  destruct (categories_df_valid (loaded df0) "AlgorithmType"
              ltac:(rewrite Hcat; discriminate) _ Hcat) as [Hv Hk].
  assert (Hkeys : keys = infer_categories (series df0 "AlgorithmType")).
  { unfold keys, failure_rates. rewrite keys_groupby_mean. exact Hk. }
  destruct (categories_are_the_distinct_labels (series df0 "AlgorithmType"))
    as [Hnd Hin].
  split; [rewrite Hkeys; exact Hnd |]. split.
  - intros c. rewrite Hkeys, Hin. unfold series. rewrite in_map_iff.
    split.
    + intros [[r0 [Hc Hr]] Hna]. split; [exact Hna |]. exists r0. tauto.
    + intros [Hna [r0 [Hr Hc]]]. split; [| exact Hna]. exists r0. tauto.
  - rewrite Hkeys. unfold avg_elapsed. rewrite keys_groupby_mean. exact Hv.
Qed.

Lemma to_numeric_not_text (v : value) (s : string) : to_numeric v <> VStr s.
Proof.
  destruct v as [t | q | b |]; cbn; try discriminate.
  destruct (parse_float t); discriminate.
Qed.


Lemma columns_assign (df : frame) (col : string) (d : dtype) (f : row -> value) :
  columns (assign df col d f)
  = if has_column df col then columns df else (columns df ++ [col])%list.
Proof.
  unfold assign, columns at 1. cbn [dtypes].
  destruct (has_column df col) eqn:Hc.
  - apply names_set_dtype_present. apply has_column_In. exact Hc.
  - apply names_set_dtype_absent. intros Hin. apply has_column_In in Hin.
    congruence.
Qed.

Lemma columns_loaded_eq (df0 : frame) :
  has_column df0 "AlgorithmType" = true ->
  columns (loaded df0)
  = if has_column df0 "Failure" then columns df0
    else (columns df0 ++ ["Failure"])%list.
Proof.
  intros Ha.
  assert (Hc : columns (coerce (astype_category df0 "AlgorithmType"))
               = columns df0).
  { unfold coerce. rewrite columns_fold_coerce.
    apply columns_astype_category. exact Ha. }
  unfold loaded, add_failure. rewrite columns_assign.
  rewrite (has_column_coerce_astype df0 "Failure" Ha), Hc. reflexivity.
Qed.


(** X7: in the loaded table no cell of a designated numeric column is text,
    whatever the store held, and every record has a boolean failure flag:
    the comparison of line 33 and the means never meet a string. *)
Theorem loaded_numeric_columns_hold_no_text
        (df0 df : frame) (st st' : state) (r : row) :
  load df0 st = (Ok df, st') ->
  In r (rows df) ->
  (forall c s, In c numeric_columns -> has_column df0 c = true ->
               cell r c <> VStr s)
  /\ (forall s, cell r "Intersections" <> VStr s)
  /\ exists b, cell r "Failure" = VBool b.
Proof.
  intros Hl Hr. apply load_inv in Hl. destruct Hl as [Ha [Hi [-> _]]].
  rewrite rows_loaded_map in Hr. apply in_map_iff in Hr.
  destruct Hr as [r0 [<- _]].
  assert (Hcols : forall c s, In c numeric_columns -> has_column df0 c = true ->
                              cell (load_row df0 r0) c <> VStr s).
  { intros c s Hc Hh.
    assert (Hne : c <> "Failure").
    { intros ->. cbn in Hc.
      repeat (destruct Hc as [Hc | Hc]; [discriminate Hc |]). exact Hc. }
    rewrite cell_load_row by assumption.
    assert (He : existsb (String.eqb c) numeric_columns = true)
      by (apply existsb_eqb_In; exact Hc).
    rewrite He, Hh. cbn [andb]. apply to_numeric_not_text. }
  split; [exact Hcols |]. split.
  - intros s. apply Hcols; [| exact Hi].
    unfold numeric_columns. do 12 right. left. reflexivity.
  - eexists. apply flag_load_row.
Qed.

End LoadedTable.

Section RateFacts.
Context `{P : Analyze.Pandas}.
Import Analyze.

Lemma rate_in_unit_interval (k m : nat) :
  (k <= S m)%nat ->
  exists q, rate k (S m) = VNum q /\ (0 <= q)%Q /\ (q <= 1)%Q.
Proof.
  intros Hk. unfold rate. eexists. split; [reflexivity |].
  assert (Hpos : (0 < inject_Z (Z.of_nat (S m)))%Q).
  { change 0%Q with (inject_Z 0). rewrite <- Zlt_Qlt. lia. }
  rewrite Qred_correct. split.
  - apply Qle_shift_div_l; [exact Hpos |]. rewrite Qmult_0_l.
    change 0%Q with (inject_Z 0). rewrite <- Zle_Qle. lia.
  - apply Qle_shift_div_r; [exact Hpos |]. rewrite Qmult_1_l.
    rewrite <- Zle_Qle. lia.
Qed.

Lemma rate_full (m : nat) : rate (S m) (S m) = VNum 1.
Proof.
  unfold rate. f_equal. change 1%Q with (Qred 1). apply Qred_complete.
  unfold Qdiv. apply Qmult_inv_r. intros Hz.
  assert (Hpos : (0 < inject_Z (Z.of_nat (S m)))%Q).
  { change 0%Q with (inject_Z 0). rewrite <- Zlt_Qlt. lia. }
  rewrite Hz in Hpos. now apply Qlt_irrefl in Hpos.
Qed.

Lemma filter_all {X : Type} (f : X -> bool) (l : list X) :
  (forall x, In x l -> f x = true) -> filter f l = l.
Proof.
  induction l as [| x l IH]; cbn; intros Hl; [reflexivity |].
  rewrite (Hl x) by now left. f_equal. apply IH. intros y Hy. apply Hl.
  now right.
Qed.

Lemma nothing_in_nil {X : Type} (l : list X) :
  (forall x, ~ In x l) -> l = [].
Proof.
  destruct l as [| x l]; [reflexivity |]. intros Hl. exfalso.
  apply (Hl x). now left.
Qed.

Lemma categories_loaded (df0 : frame) :
  categories_of (loaded df0) "AlgorithmType"
  = infer_categories (series df0 "AlgorithmType")
  /\ categories_of (df_valid (loaded df0)) "AlgorithmType"
     = infer_categories (series df0 "AlgorithmType").
Proof.
  pose proof (category_loaded df0) as Hcat.
  destruct (categories_df_valid (loaded df0) "AlgorithmType"
              ltac:(rewrite Hcat; discriminate) _ Hcat) as [Hv Hk].
  split; assumption.
Qed.

Lemma keys_failure_rates (df : frame) :
  map fst (failure_rates df) = categories_of df "AlgorithmType".
Proof. apply keys_groupby_mean. Qed.

Lemma keys_avg_elapsed (df : frame) :
  map fst (avg_elapsed df) = categories_of (df_valid df) "AlgorithmType".
Proof. apply keys_groupby_mean. Qed.

Lemma rates_are_fractions (df : frame) (c v : value) :
  (forall r, In r (rows df) ->
     cell r "Failure" = VBool (gt0 (cell r "Intersections"))) ->
  (forall k, In k (categories_of df "AlgorithmType") ->
             group df "AlgorithmType" k <> []) ->
  In (c, v) (failure_rates df) ->
  exists q, v = VNum q /\ (0 <= q)%Q /\ (q <= 1)%Q.
Proof.
  intros Hflag Hfull Hin. rewrite (failure_rates_flags df Hflag) in Hin.
  apply in_map_iff in Hin. destruct Hin as [k [Heq Hk]].
  specialize (Hfull k Hk). cbn zeta in Heq.
  destruct (group df "AlgorithmType" k) as [| r g]; [congruence |].
  pose proof (f_equal snd Heq) as Hv. cbn [snd] in Hv. rewrite <- Hv.
  change (List.length (r :: g)) with (S (List.length g)).
  apply rate_in_unit_interval.
  apply filter_length_le.
Qed.

(** X8: every failure rate the script reports is a number between 0 and 1,
    which is what the fixed axis of the failure-rate chart takes for
    granted; in the script's own table it is never the missing value. *)
Theorem failure_rates_are_fractions
        (df0 df : frame) (st st' : state) (c v : value) :
  load df0 st = (Ok df, st') ->
  In (c, v) (failure_rates df) ->
  exists q, v = VNum q /\ (0 <= q)%Q /\ (q <= 1)%Q.
Proof.
  intros Hl. apply load_inv in Hl. destruct Hl as [Ha [_ [-> _]]].
  apply rates_are_fractions.
  - intros r. apply failure_flag.
  - intros k Hk. destruct (categories_loaded df0) as [Hcat _].
    rewrite Hcat in Hk. exact (own_categories_have_records df0 k Ha Hk).
Qed.

Lemma all_failed_generic (df : frame) (cs : list value) (c : value) :
  dtype_of (dtypes df) "AlgorithmType" = Some (DCategory cs) ->
  (forall r, In r (rows df) ->
     cell r "Failure" = VBool (gt0 (cell r "Intersections"))) ->
  In c cs ->
  group df "AlgorithmType" c <> [] ->
  (forall r, In r (group df "AlgorithmType" c) ->
             gt0 (cell r "Intersections") = true) ->
  In (c, VNum 1) (failure_rates df) /\ In (c, VNaN) (avg_elapsed df).
Proof.
  intros Hd Hflag Hc Hne Hall.
  destruct (categories_df_valid df "AlgorithmType"
              ltac:(rewrite Hd; discriminate) cs Hd) as [Hv Hk].
  split.
  - rewrite (failure_rates_flags df Hflag), Hk. apply in_map_iff. exists c.
    split; [| exact Hc]. cbn zeta. f_equal.
    rewrite (filter_all _ _ Hall).
    destruct (group df "AlgorithmType" c) as [| r g]; [congruence |].
    apply rate_full.
  - unfold avg_elapsed, groupby_mean. rewrite Hv. apply in_map_iff.
    exists c. split; [| exact Hc]. f_equal.
    assert (Hnil : group (df_valid df) "AlgorithmType" c = []).
    { apply nothing_in_nil. intros r Hr. unfold group in Hr.
      apply filter_In in Hr. destruct Hr as [Hr Hkey].
      rewrite (df_valid_flags df Hflag) in Hr. apply filter_In in Hr.
      destruct Hr as [Hr Hok].
      assert (Hg : In r (group df "AlgorithmType" c)).
      { apply filter_In. split; assumption. }
      rewrite (Hall r Hg) in Hok. discriminate Hok. }
    rewrite Hnil. reflexivity.
Qed.

(** X9: an algorithm all of whose runs failed has failure rate 1 and, since
    none of its runs is valid, the missing value as its mean elapsed time:
    its line is kept, with nothing to draw. *)
Theorem all_failed_algorithm_has_no_mean
        (df0 df : frame) (st st' : state) (c : value) :
  load df0 st = (Ok df, st') ->
  In c (map fst (failure_rates df)) ->
  (forall r, In r (group df "AlgorithmType" c) ->
             gt0 (cell r "Intersections") = true) ->
  In (c, VNum 1) (failure_rates df) /\ In (c, VNaN) (avg_elapsed df).
Proof.
  intros Hl. apply load_inv in Hl. destruct Hl as [Ha [_ [-> _]]].
  intros Hc Hall.
  destruct (categories_loaded df0) as [Hk _].
  rewrite keys_failure_rates, Hk in Hc.
  apply (all_failed_generic (loaded df0)
           (infer_categories (series df0 "AlgorithmType")) c).
  - apply category_loaded.
  - intros r. apply failure_flag.
  - exact Hc.
  - exact (own_categories_have_records df0 c Ha Hc).
  - exact Hall.
Qed.

End RateFacts.

Section AnnotationFacts.
Import Analyze.

Lemma find_by_key (f : value -> value) (cs : list value) (c : value) :
  In c cs -> c <> VNaN ->
  find (fun kv => value_eqb (fst kv) c) (map (fun k => (k, f k)) cs)
  = Some (c, f c).
Proof.
  intros Hc Hna. induction cs as [| k cs IH]; [contradiction |].
  cbn [map find fst]. destruct (value_eqb k c) eqn:E.
  - apply value_eqb_eq in E. now subst.
  - apply IH. destruct Hc as [-> | Hc]; [| exact Hc].
    rewrite value_eqb_refl in E by exact Hna. discriminate.
Qed.

Lemma annotate_by_key (f g : value -> value) (cs : list value) (st : state) :
  (forall c, In c cs -> c <> VNaN) ->
  forall (bars : list value) (i : nat),
    incl bars cs ->
    annotate (map (fun k => (k, f k)) cs) i (map (fun k => (k, g k)) bars) st
    = (Ok (map (fun p => (fst p, g (snd p), f (snd p)))
               (combine (seq i (List.length bars)) bars)), st).
Proof.
  intros Hna bars. induction bars as [| c bars IH]; intros i Hincl.
  - reflexivity.
  - cbn [map annotate List.length seq combine fst snd].
    rewrite find_by_key;
      [| apply Hincl; now left | apply Hna, Hincl; now left].
    unfold bind. rewrite IH by (intros x Hx; apply Hincl; now right).
    reflexivity.
Qed.

Lemma map_fst_combine_seq {X : Type} (l : list X) (i : nat) :
  map fst (combine (seq i (List.length l)) l) = seq i (List.length l).
Proof.
  revert i. induction l as [| x l IH]; intros i; cbn; [reflexivity |].
  now rewrite IH.
Qed.

Lemma map_snd_combine_seq {X : Type} (l : list X) (i : nat) :
  map snd (combine (seq i (List.length l)) l) = l.
Proof.
  revert i. induction l as [| x l IH]; intros i; cbn; [reflexivity |].
  now rewrite IH.
Qed.

Lemma combine_map_both {X Y Z : Type} (g : X -> Y) (f : X -> Z) (l : list X) :
  combine (map g l) (map f l) = map (fun x => (g x, f x)) l.
Proof.
  induction l as [| x l IH]; cbn; [reflexivity |]. now rewrite IH.
Qed.

(** The loop of lines 115 to 120 for any table whose algorithm column is
    categorical. *)
Lemma annotate_lines_up (df : frame) (cs : list value) (st : state) :
  dtype_of (dtypes df) "AlgorithmType" = Some (DCategory cs) ->
  (forall c, In c cs -> c <> VNaN) ->
  exists notes,
    annotate (failure_rates df) 0 (avg_elapsed df) st = (Ok notes, st)
    /\ map (fun n => fst (fst n)) notes = seq 0 (List.length (avg_elapsed df))
    /\ map (fun n => (snd (fst n), snd n)) notes
       = combine (map snd (avg_elapsed df)) (map snd (failure_rates df)).
Proof.
  intros Hd Hna.
  destruct (categories_df_valid df "AlgorithmType"
              ltac:(rewrite Hd; discriminate) cs Hd) as [Hv Hk].
  unfold failure_rates, avg_elapsed, groupby_mean. rewrite Hv, Hk.
  set (f := fun c => mean (map (fun r => cell r "Failure")
                               (group df "AlgorithmType" c))).
  set (g := fun c => mean (map (fun r => cell r "ElapsedTimeSeconds")
                               (group (df_valid df) "AlgorithmType" c))).
  eexists. split; [apply (annotate_by_key f g cs st Hna cs 0%nat) |].
  - apply incl_refl.
  - rewrite !map_map. cbn [fst snd]. split.
    + rewrite length_map.
      change (fun x : nat * value => fst x) with (@fst nat value).
      apply map_fst_combine_seq.
    + rewrite combine_map_both.
      transitivity (map (fun c => (g c, f c))
                        (map snd (combine (seq 0 (List.length cs)) cs))).
      * rewrite map_map. reflexivity.
      * rewrite map_snd_combine_seq. reflexivity.
Qed.

(** X10: the loop that annotates the bars never raises: every bar finds a
    failure rate.  Note [i] is put at bar [i], at that bar's height, and
    carries failure rate number [i]; as both tables have the same
    algorithms in the same order, it is the rate of the bar's own
    algorithm. *)
Theorem every_bar_gets_its_failure_rate `{P : Pandas}
        (df0 df : frame) (st0 st0' st : state) :
  load df0 st0 = (Ok df, st0') ->
  map fst (avg_elapsed df) = map fst (failure_rates df)
  /\ exists notes,
       annotate (failure_rates df) 0 (avg_elapsed df) st = (Ok notes, st)
       /\ map (fun n => fst (fst n)) notes
          = seq 0 (List.length (avg_elapsed df))
       /\ map (fun n => (snd (fst n), snd n)) notes
          = combine (map snd (avg_elapsed df)) (map snd (failure_rates df)).
Proof.
  intros Hl.
  destruct (one_line_per_algorithm_label df0 df st0 st0' Hl) as [_ [_ Hkeys]].
  split; [exact Hkeys |].
  apply load_inv in Hl. destruct Hl as [_ [_ [-> _]]].
  apply (annotate_lines_up (loaded df0)
           (infer_categories (series df0 "AlgorithmType")) st).
  - apply category_loaded.
  - intros c Hc.
    apply (categories_are_the_distinct_labels (series df0 "AlgorithmType")).
    exact Hc.
Qed.

End AnnotationFacts.

Section OrderFacts.
Import Analyze.

Lemma Permutation_filter_same {X : Type} (f : X -> bool) (l l' : list X) :
  Permutation l l' -> Permutation (filter f l) (filter f l').
Proof.
  induction 1 as [| x l l' Hp IH | x y l | l l' l'' H1 IH1 H2 IH2]; cbn.
  - constructor.
  - destruct (f x); [now constructor | exact IH].
  - destruct (f x), (f y); try apply Permutation_refl. apply perm_swap.
  - now transitivity (filter f l').
Qed.

Lemma names_set_dtype_any (ds : list (string * dtype)) (col : string) (d d' : dtype) :
  map fst (set_dtype ds col d) = map fst (set_dtype ds col d').
Proof.
  induction ds as [| [k e] ds IH]; cbn; [reflexivity |].
  destruct (String.eqb k col); cbn; [reflexivity | now rewrite IH].
Qed.

End OrderFacts.

Section OrderClaims.
Context `{P : Analyze.Pandas}.
Import Analyze.

Lemma load_row_same_columns (df0 df0' : frame) (r : row) :
  dtypes df0 = dtypes df0' -> load_row df0 r = load_row df0' r.
Proof.
  intros Hd. unfold load_row, coerced.
  assert (Hf : forall c, has_column (astype_category df0 "AlgorithmType") c
                         = has_column (astype_category df0' "AlgorithmType") c).
  { intros c. unfold has_column, columns, astype_category. cbn [dtypes].
    rewrite Hd.
    now rewrite (names_set_dtype_any (dtypes df0') "AlgorithmType"
                   (DCategory (infer_categories (series df0 "AlgorithmType")))
                   (DCategory (infer_categories (series df0' "AlgorithmType")))). }
  rewrite (filter_ext _ _ Hf). reflexivity.
Qed.

Lemma loaded_Permutation (df0 df0' : frame) :
  dtypes df0 = dtypes df0' ->
  Permutation (rows df0) (rows df0') ->
  Permutation (rows (loaded df0)) (rows (loaded df0'))
  /\ Permutation (rows (df_valid (loaded df0))) (rows (df_valid (loaded df0')))
  /\ (forall k, In k (infer_categories (series df0 "AlgorithmType")) ->
                In k (infer_categories (series df0' "AlgorithmType"))).
Proof.
  intros Hd Hp.
  assert (Hrows : Permutation (rows (loaded df0)) (rows (loaded df0'))).
  { rewrite !rows_loaded_map.
    rewrite (map_ext _ _ (fun r => load_row_same_columns df0 df0' r Hd)).
    now apply Permutation_map. }
  split; [exact Hrows |]. split.
  - rewrite !df_valid_loaded. now apply Permutation_filter_same.
  - intros k Hk.
    apply (categories_are_the_distinct_labels (series df0 "AlgorithmType")) in Hk.
    apply (categories_are_the_distinct_labels (series df0' "AlgorithmType")).
    destruct Hk as [Hk Hna]. split; [| exact Hna].
    apply Permutation_in with (l := series df0 "AlgorithmType"); [| exact Hk].
    unfold series. now apply Permutation_map.
Qed.

(** The failure rate of an algorithm is made of two counts, which do not
    change when the records are reordered. *)
Lemma failure_rates_Permutation (df0 df0' : frame) (c v : value) :
  Permutation (rows (loaded df0)) (rows (loaded df0')) ->
  (forall k, In k (infer_categories (series df0 "AlgorithmType")) ->
             In k (infer_categories (series df0' "AlgorithmType"))) ->
  In (c, v) (failure_rates (loaded df0)) ->
  In (c, v) (failure_rates (loaded df0')).
Proof.
  intros Hrows Hcat Hin.
  rewrite failure_rates_loaded in Hin. rewrite failure_rates_loaded.
  rewrite (proj1 (categories_loaded df0)) in Hin.
  rewrite (proj1 (categories_loaded df0')).
  apply in_map_iff in Hin. destruct Hin as [k [Heq Hk]].
  apply in_map_iff. exists k. split; [| now apply Hcat].
  rewrite <- Heq. cbn zeta. f_equal.
  assert (Hg : Permutation (group (loaded df0') "AlgorithmType" k)
                           (group (loaded df0) "AlgorithmType" k)).
  { unfold group. now apply Permutation_filter_same, Permutation_sym. }
  rewrite (Permutation_length Hg).
  rewrite (Permutation_length
             (Permutation_filter_same
                (fun r => gt0 (cell r "Intersections")) _ _ Hg)).
  reflexivity.
Qed.

(** X11: the failure rates do not depend on the order in which the runs
    were recorded: two stores with the same columns and the same records in
    a different order give every algorithm the same failure rate, which is
    a count of failed records over a count of records; and the valid runs
    whose elapsed times are averaged for an algorithm are the same
    records. *)
Theorem failure_rates_ignore_record_order
        (df0 df0' : frame) (c v : value) :
  dtypes df0 = dtypes df0' ->
  Permutation (rows df0) (rows df0') ->
  (In (c, v) (failure_rates (loaded df0))
   <-> In (c, v) (failure_rates (loaded df0')))
  /\ Permutation (group (df_valid (loaded df0)) "AlgorithmType" c)
                 (group (df_valid (loaded df0')) "AlgorithmType" c).
Proof.
  intros Hd Hp.
  destruct (loaded_Permutation df0 df0' Hd Hp) as [Hrows [Hvalid Hcat]].
  destruct (loaded_Permutation df0' df0 (eq_sym Hd) (Permutation_sym Hp))
    as [_ [_ Hcat']].
  split; [| unfold group; now apply Permutation_filter_same].
  split; intros Hin.
  - exact (failure_rates_Permutation df0 df0' c v Hrows Hcat Hin).
  - exact (failure_rates_Permutation df0' df0 c v (Permutation_sym Hrows)
             Hcat' Hin).
Qed.

End OrderClaims.

Section RunFacts.
Context `{P : Analyze.Pandas}.
Import Analyze Further.

Lemma need_ok (exn : string) (df : frame) (col : string) (st : state) :
  has_column df col = true -> need exn df col st = (Ok tt, st).
Proof. intros Hc. unfold need. rewrite Hc. reflexivity. Qed.

Lemma need_stop (exn : string) (df : frame) (col : string) (st : state) :
  has_column df col = false ->
  need exn df col st = (Stop (Uncaught (exn ++ ": " ++ col)), st).
Proof. intros Hc. unfold need. rewrite Hc. reflexivity. Qed.

Lemma has_column_loaded (df0 : frame) (c : string) :
  has_column df0 "AlgorithmType" = true -> c <> "Failure" ->
  has_column (loaded df0) c = has_column df0 c.
Proof.
  intros Ha Hc. unfold has_column. rewrite columns_loaded_eq by exact Ha.
  destruct (has_column df0 "Failure"); [reflexivity |].
  rewrite existsb_app. cbn [existsb].
  apply String.eqb_neq in Hc. rewrite Hc. now rewrite !orb_false_r.
Qed.

Lemma annotate_loaded (df0 : frame) (st : state) :
  exists notes,
    annotate (failure_rates (loaded df0)) 0 (avg_elapsed (loaded df0)) st
    = (Ok notes, st).
Proof.
  destruct (annotate_lines_up (loaded df0)
              (infer_categories (series df0 "AlgorithmType")) st
              (category_loaded df0)) as [notes [Hn _]].
  - intros c Hc.
    apply (categories_are_the_distinct_labels (series df0 "AlgorithmType")).
    exact Hc.
  - exists notes. exact Hn.
Qed.

Lemma export_reduced_result (fs : files) (st : state) :
  export_reduced fs st
  = match cwd_summary_csv fs with
    | None => (Stop (Uncaught "FileNotFoundError"), st)
    | Some EmptyFile => (Stop (Uncaught "EmptyDataError"), st)
    | Some (Records df) =>
        (Ok tt,
         {| printed := printed st ++ ["Exported summaryReduced.csv successfully."];
            written := written st ++
                       [Csv reduced_file (columns (partial_df df))
                            (csv_body (partial_df df))] |})
    end.
Proof.
  unfold export_reduced, bind.
  destruct (cwd_summary_csv fs) as [[| df] |]; reflexivity.
Qed.

(** The script up to line 125, when the store has the columns it reads
    and each of the five charts is drawn: the five figures are written, in
    order, and the message is printed. *)
Lemma charts_are_written (fs : files) (df0 : frame) :
  summary_csv fs = Some (Records df0) ->
  has_column df0 "AlgorithmType" = true ->
  has_column df0 "Intersections" = true ->
  has_column df0 "ElapsedTimeSeconds" = true ->
  has_column df0 "NQueens" = true ->
  has_column df0 "Complexity" = true ->
  plot_error (elapsed_boxplot (loaded df0)) = None ->
  plot_error (complexity_scatter (loaded df0)) = None ->
  plot_error (Barplot (failure_rates (loaded df0))) = None ->
  plot_error (correlation_heatmap (loaded df0)) = None ->
  (forall notes,
     plot_error (AnnotatedBars (avg_elapsed (loaded df0)) notes) = None) ->
  exists a1 a2 a3 a4 a5,
    analyze fs
    = (let '(r, st) :=
         export_reduced fs
           {| printed := ["Updated charts saved in Data folder."];
              written := [Figure "elapsed_time_comparison.png" a1;
                          Figure "time_complexity_comparison.png" a2;
                          Figure "failure_rate_comparison.png" a3;
                          Figure "parameter_correlation_heatmap.png" a4;
                          Figure "avg_elapsed_time_valid.png" a5] |} in
       match r with
       | Ok _ => (Finished, st)
       | Stop e => (e, st)
       end).
Proof.
  intros Hs Ha Hi He Hn Hc H1 H2 H3 H4 H5. unfold analyze, analysis. rewrite Hs.
  cbv beta iota zeta delta [bind ret read_csv].
  rewrite (load_ok df0 _ Ha Hi). cbv beta iota.
  rewrite need_ok
    by (rewrite has_column_loaded by (exact Ha || discriminate); exact He).
  cbv beta iota delta [draw]. rewrite H1.
  cbv beta iota delta [write print printed written app].
  rewrite need_ok
    by (rewrite has_column_loaded by (exact Ha || discriminate); exact Hn).
  cbv beta iota.
  rewrite need_ok
    by (rewrite has_column_loaded by (exact Ha || discriminate); exact Hc).
  cbv beta iota. rewrite H2, H3, H4.
  cbv beta iota delta [write printed written app].
  match goal with
  | |- context [annotate _ 0 _ ?s] =>
      destruct (annotate_loaded df0 s) as [notes Hnotes]
  end.
  rewrite Hnotes. cbv beta iota. rewrite H5.
  cbv beta iota delta [write print printed written app].
  do 5 eexists. reflexivity.
Qed.

(** The script up to the first chart, when the store has the columns that
    are read before it. *)
Lemma analysis_reaches_first_chart (fs : files) (df0 : frame) :
  summary_csv fs = Some (Records df0) ->
  has_column df0 "AlgorithmType" = true ->
  has_column df0 "Intersections" = true ->
  has_column df0 "ElapsedTimeSeconds" = true ->
  forall exn, plot_error (elapsed_boxplot (loaded df0)) = Some exn ->
  analyze fs = (Uncaught exn, {| printed := []; written := [] |}).
Proof.
  intros Hs Ha Hi He exn H1. unfold analyze, analysis. rewrite Hs.
  cbv beta iota zeta delta [bind ret read_csv].
  rewrite (load_ok df0 _ Ha Hi). cbv beta iota.
  rewrite need_ok
    by (rewrite has_column_loaded by (exact Ha || discriminate); exact He).
  cbv beta iota delta [draw]. rewrite H1. reflexivity.
Qed.

(** X12: with a store that has the five columns the script reads, the same
    store reachable from the current directory, and plotting calls that
    draw each of the five charts, the aggregator ends normally, prints its
    two messages, and writes the five figures and then the reduced export,
    in this order. *)
Theorem aggregator_writes_six_artifacts (fs : files) (df0 df1 : frame) :
  summary_csv fs = Some (Records df0) ->
  cwd_summary_csv fs = Some (Records df1) ->
  has_column df0 "AlgorithmType" = true ->
  has_column df0 "Intersections" = true ->
  has_column df0 "ElapsedTimeSeconds" = true ->
  has_column df0 "NQueens" = true ->
  has_column df0 "Complexity" = true ->
  plot_error (elapsed_boxplot (loaded df0)) = None ->
  plot_error (complexity_scatter (loaded df0)) = None ->
  plot_error (Barplot (failure_rates (loaded df0))) = None ->
  plot_error (correlation_heatmap (loaded df0)) = None ->
  (forall notes,
     plot_error (AnnotatedBars (avg_elapsed (loaded df0)) notes) = None) ->
  fst (analyze fs) = Finished
  /\ printed (snd (analyze fs))
     = ["Updated charts saved in Data folder.";
        "Exported summaryReduced.csv successfully."]
  /\ map artifact_file (written (snd (analyze fs)))
     = (figure_files ++ [reduced_file])%list.
Proof.
  intros Hs Hcwd Ha Hi He Hn Hc H1 H2 H3 H4 H5.
  destruct (charts_are_written fs df0 Hs Ha Hi He Hn Hc H1 H2 H3 H4 H5)
    as (a1 & a2 & a3 & a4 & a5 & Heq).
  rewrite Heq, export_reduced_result, Hcwd. repeat split.
Qed.

(** X13: the reduced export reads the store through a path relative to the
    current directory.  Started from a directory without [Data/summary.csv],
    and with plotting calls that draw each of the five charts, the
    aggregator writes the five figures, prints that they were saved, and
    then ends with an uncaught [FileNotFoundError]: no reduced export is
    written. *)
Theorem export_fails_away_from_the_store (fs : files) (df0 : frame) :
  summary_csv fs = Some (Records df0) ->
  cwd_summary_csv fs = None ->
  has_column df0 "AlgorithmType" = true ->
  has_column df0 "Intersections" = true ->
  has_column df0 "ElapsedTimeSeconds" = true ->
  has_column df0 "NQueens" = true ->
  has_column df0 "Complexity" = true ->
  plot_error (elapsed_boxplot (loaded df0)) = None ->
  plot_error (complexity_scatter (loaded df0)) = None ->
  plot_error (Barplot (failure_rates (loaded df0))) = None ->
  plot_error (correlation_heatmap (loaded df0)) = None ->
  (forall notes,
     plot_error (AnnotatedBars (avg_elapsed (loaded df0)) notes) = None) ->
  fst (analyze fs) = Uncaught "FileNotFoundError"
  /\ exit_status (fst (analyze fs)) = 1
  /\ printed (snd (analyze fs)) = ["Updated charts saved in Data folder."]
  /\ map artifact_file (written (snd (analyze fs))) = figure_files.
Proof.
  intros Hs Hcwd Ha Hi He Hn Hc H1 H2 H3 H4 H5.
  destruct (charts_are_written fs df0 Hs Ha Hi He Hn Hc H1 H2 H3 H4 H5)
    as (a1 & a2 & a3 & a4 & a5 & Heq).
  rewrite Heq, export_reduced_result, Hcwd. repeat split.
Qed.

(** X14: a column a chart needs and the store lacks ends the aggregator
    when that chart is drawn, with what was drawn before left behind:
    without [ElapsedTimeSeconds] nothing is written; with it but without
    [NQueens] or [Complexity], the elapsed-time figure alone is written if
    the box plot is drawn, and nothing is if the box plot raises. *)
Theorem missing_chart_column_stops_midway (fs : files) (df0 : frame) :
  summary_csv fs = Some (Records df0) ->
  has_column df0 "AlgorithmType" = true ->
  has_column df0 "Intersections" = true ->
  (has_column df0 "ElapsedTimeSeconds" = false ->
   fatal (fst (analyze fs)) = true /\ written (snd (analyze fs)) = [])
  /\ (has_column df0 "ElapsedTimeSeconds" = true ->
      has_column df0 "NQueens" = false \/ has_column df0 "Complexity" = false ->
      fatal (fst (analyze fs)) = true
      /\ exit_status (fst (analyze fs)) = 1
      /\ (plot_error (elapsed_boxplot (loaded df0)) = None ->
          map artifact_file (written (snd (analyze fs)))
          = ["elapsed_time_comparison.png"])
      /\ (plot_error (elapsed_boxplot (loaded df0)) <> None ->
          written (snd (analyze fs)) = [])).
Proof.
  intros Hs Ha Hi. split.
  - intros He. unfold analyze, analysis. rewrite Hs.
    cbv beta iota zeta delta [bind ret read_csv].
    rewrite (load_ok df0 _ Ha Hi). cbv beta iota.
    rewrite need_stop
      by (rewrite has_column_loaded by (exact Ha || discriminate); exact He).
    split; reflexivity.
  - intros He Hmiss.
    destruct (plot_error (elapsed_boxplot (loaded df0))) as [exn |] eqn:H1.
    { rewrite (analysis_reaches_first_chart fs df0 Hs Ha Hi He exn H1).
      cbn [fst snd fatal exit_status written].
      split; [reflexivity |]. split; [reflexivity |].
      split; [discriminate | reflexivity]. }
    unfold analyze, analysis. rewrite Hs.
    cbv beta iota zeta delta [bind ret read_csv].
    rewrite (load_ok df0 _ Ha Hi). cbv beta iota.
    rewrite need_ok
      by (rewrite has_column_loaded by (exact Ha || discriminate); exact He).
    cbv beta iota delta [draw]. rewrite H1.
    cbv beta iota delta [write print printed written app].
    destruct (has_column df0 "NQueens") eqn:Hn.
    + destruct Hmiss as [Hmiss | Hc]; [discriminate Hmiss |].
      rewrite need_ok
        by (rewrite has_column_loaded by (exact Ha || discriminate); exact Hn).
      cbv beta iota.
      rewrite need_stop
        by (rewrite has_column_loaded by (exact Ha || discriminate); exact Hc).
      cbn [fst snd fatal exit_status written map artifact_file].
      split; [reflexivity |]. split; [reflexivity |].
      split; [reflexivity | congruence].
    + rewrite need_stop
        by (rewrite has_column_loaded by (exact Ha || discriminate); exact Hn).
      cbn [fst snd fatal exit_status written map artifact_file].
      split; [reflexivity |]. split; [reflexivity |].
      split; [reflexivity | congruence].
Qed.

(** X15: a chart the plotting calls cannot draw ends the aggregator with
    the exception they raise.  When it is the first chart, the box plot of
    the elapsed times, nothing is written: no figure, and no reduced
    export. *)
Theorem undrawable_first_chart_writes_nothing
        (fs : files) (df0 : frame) (exn : string) :
  summary_csv fs = Some (Records df0) ->
  has_column df0 "AlgorithmType" = true ->
  has_column df0 "Intersections" = true ->
  has_column df0 "ElapsedTimeSeconds" = true ->
  plot_error (elapsed_boxplot (loaded df0)) = Some exn ->
  fst (analyze fs) = Uncaught exn
  /\ fatal (fst (analyze fs)) = true
  /\ exit_status (fst (analyze fs)) = 1
  /\ written (snd (analyze fs)) = []
  /\ printed (snd (analyze fs)) = [].
Proof.
  intros Hs Ha Hi He H1.
  rewrite (analysis_reaches_first_chart fs df0 Hs Ha Hi He exn H1).
  repeat split.
Qed.

End RunFacts.

(** * The further properties on the example tables *)

Section FurtherExamples.
Import Analyze Demo Further.

Lemma five_runs_load :
  @load demo_pandas five_runs nothing_yet
  = (Ok (@loaded demo_pandas five_runs), nothing_yet).
Proof. vm_compute. reflexivity. Defined.

Lemma damaged_runs_load :
  @load demo_pandas damaged_runs nothing_yet
  = (Ok (@loaded demo_pandas damaged_runs), nothing_yet).
Proof. vm_compute. reflexivity. Defined.

Lemma tournament_fails_load :
  @load demo_pandas tournament_fails nothing_yet
  = (Ok (@loaded demo_pandas tournament_fails), nothing_yet).
Proof. vm_compute. reflexivity. Defined.

Lemma one_line_per_algorithm_label_witness :
  NoDup (map fst (failure_rates (@loaded demo_pandas five_runs)))
  /\ map fst (avg_elapsed (@loaded demo_pandas five_runs))
     = map fst (failure_rates (@loaded demo_pandas five_runs)).
Proof.
  destruct (@one_line_per_algorithm_label demo_pandas five_runs _ _ _
              five_runs_load) as [Hnd [_ Hkeys]].
  split; [exact Hnd | exact Hkeys].
Defined.


Lemma loaded_numeric_columns_hold_no_text_witness :
  cell (@load_row demo_pandas damaged_runs
          (record "Genetic" 8 1 (VStr "4") (VStr "n/a")))
       "Intersections" <> VStr "n/a".
Proof.
  exact (proj1 (proj2
    (@loaded_numeric_columns_hold_no_text demo_pandas damaged_runs _ _ _
       (@load_row demo_pandas damaged_runs
          (record "Genetic" 8 1 (VStr "4") (VStr "n/a")))
       damaged_runs_load
       ltac:(vm_compute; right; left; reflexivity))) "n/a").
Defined.

Lemma failure_rates_are_fractions_witness :
  exists q, VNum (1 # 3) = VNum q /\ (0 <= q)%Q /\ (q <= 1)%Q.
Proof.
  exact (@failure_rates_are_fractions demo_pandas five_runs _ _ _
           (VStr "Genetic") (VNum (1 # 3)) five_runs_load
           ltac:(vm_compute; left; reflexivity)).
Defined.

Lemma all_failed_algorithm_has_no_mean_witness :
  In (VStr "Tournament", VNum 1)
     (failure_rates (@loaded demo_pandas tournament_fails))
  /\ In (VStr "Tournament", VNaN)
        (avg_elapsed (@loaded demo_pandas tournament_fails)).
Proof.
  apply (@all_failed_algorithm_has_no_mean demo_pandas tournament_fails _ _ _
           (VStr "Tournament") tournament_fails_load).
  - vm_compute. right. left. reflexivity.
  - intros r Hr. vm_compute in Hr.
    repeat (destruct Hr as [<- | Hr]; [reflexivity |]). contradiction.
Defined.

Lemma every_bar_gets_its_failure_rate_witness :
  exists notes,
    annotate (failure_rates (@loaded demo_pandas five_runs)) 0
             (avg_elapsed (@loaded demo_pandas five_runs)) nothing_yet
    = (Ok notes, nothing_yet).
Proof.
  destruct (@every_bar_gets_its_failure_rate demo_pandas five_runs _
              nothing_yet nothing_yet nothing_yet five_runs_load)
    as [_ [notes [Hn _]]].
  exists notes. exact Hn.
Defined.

Lemma failure_rates_ignore_record_order_witness :
  In (VStr "Genetic", VNum (1 # 3))
     (failure_rates (@loaded demo_pandas five_runs_reversed)).
Proof.
  apply (proj1 (proj1 (@failure_rates_ignore_record_order demo_pandas five_runs
                         five_runs_reversed (VStr "Genetic") (VNum (1 # 3))
                         eq_refl (Permutation_rev (rows five_runs))))).
  vm_compute. left. reflexivity.
Defined.

Lemma aggregator_writes_six_artifacts_witness :
  fst (@analyze demo_pandas (everywhere five_runs)) = Finished
  /\ List.length (written (snd (@analyze demo_pandas (everywhere five_runs))))
     = 6%nat.
Proof.
  destruct (@aggregator_writes_six_artifacts demo_pandas (everywhere five_runs)
              five_runs five_runs eq_refl eq_refl eq_refl eq_refl eq_refl
              eq_refl eq_refl eq_refl eq_refl eq_refl eq_refl
              (fun _ => eq_refl)) as [Hend [_ Hfiles]].
  split; [exact Hend |].
  rewrite <- (length_map artifact_file), Hfiles. reflexivity.
Defined.

Lemma export_fails_away_from_the_store_witness :
  fst (@analyze strict_pandas (elsewhere five_runs)) = Uncaught "FileNotFoundError"
  /\ map artifact_file (written (snd (@analyze strict_pandas (elsewhere five_runs))))
     = figure_files.
Proof.
  destruct (@export_fails_away_from_the_store strict_pandas (elsewhere five_runs)
              five_runs eq_refl eq_refl eq_refl eq_refl eq_refl eq_refl eq_refl
              ltac:(vm_compute; reflexivity) eq_refl eq_refl eq_refl
              (fun _ => eq_refl))
    as [Hend [_ [_ Hfiles]]].
  split; [exact Hend | exact Hfiles].
Defined.

Lemma missing_chart_column_stops_midway_witness :
  map artifact_file (written (snd (@analyze strict_pandas (everywhere no_complexity))))
  = ["elapsed_time_comparison.png"].
Proof.
  destruct (@missing_chart_column_stops_midway strict_pandas
              (everywhere no_complexity) no_complexity eq_refl eq_refl eq_refl)
    as [_ Hmid].
  exact (proj1 (proj2 (proj2 (Hmid eq_refl (or_intror eq_refl))))
               ltac:(vm_compute; reflexivity)).
Defined.

(** The one damaged run: its elapsed time is loaded as the missing value,
    the box plot has no number to draw, and nothing is written. *)
Lemma undrawable_first_chart_writes_nothing_witness :
  fst (@analyze strict_pandas (everywhere one_damaged_run)) = Uncaught "ValueError"
  /\ written (snd (@analyze strict_pandas (everywhere one_damaged_run))) = [].
Proof.
  destruct (@undrawable_first_chart_writes_nothing strict_pandas
              (everywhere one_damaged_run) one_damaged_run "ValueError"
              eq_refl eq_refl eq_refl eq_refl ltac:(vm_compute; reflexivity))
    as [Hend [_ [_ [Hw _]]]].
  split; [exact Hend | exact Hw].
Defined.

End FurtherExamples.

(** * The statistics of the loaded table *)

Section GroupFacts.
Import Analyze.

(** A group holds the records with its label: any test that decides the
    label picks the group out of the records. *)
Lemma group_decided (df : frame) (key : string) (c : value) (p : row -> bool) :
  c <> VNaN ->
  (forall r, p r = true <-> cell r key = c) ->
  group df key c = filter p (rows df).
Proof.
  intros Hc Hp. unfold group. apply filter_ext. intros r.
  apply eq_true_iff_eq. rewrite Hp. split.
  - apply value_eqb_eq.
  - intros ->. now apply value_eqb_refl.
Qed.

Lemma value_eqb_decides (c : value) (key : string) :
  c <> VNaN ->
  forall r : row, value_eqb (cell r key) c = true <-> cell r key = c.
Proof.
  intros Hc r. split.
  - apply value_eqb_eq.
  - intros ->. now apply value_eqb_refl.
Qed.

Lemma positive_count (n : nat) : ~ (inject_Z (Z.of_nat (S n)) == 0)%Q.
Proof.
  unfold Qeq. cbn [Qnum Qden inject_Z]. lia.
Qed.

(** The rate of a group with records is the number [k / n]. *)
Lemma rate_is_fraction (k n : nat) :
  n <> 0%nat ->
  exists q, rate k n = VNum q
            /\ (q * inject_Z (Z.of_nat n) == inject_Z (Z.of_nat k))%Q
            /\ (k = 0%nat -> q = 0%Q).
Proof.
  destruct n as [| n]; [congruence |]. intros _.
  eexists. split; [reflexivity |]. split.
  - rewrite Qred_correct. field. apply positive_count.
  - intros ->. reflexivity.
Qed.

Lemma failure_rates_of_flags (df : frame) (flag : row -> bool) :
  (forall r, In r (rows df) -> cell r "Failure" = VBool (flag r)) ->
  failure_rates df
  = map (fun c =>
           let g := group df "AlgorithmType" c in
           (c, rate (List.length (filter flag g)) (List.length g)))
        (categories_of df "AlgorithmType").
Proof.
  intros Hflag. unfold failure_rates, groupby_mean. apply map_ext. intros c.
  cbn zeta. f_equal. rewrite <- mean_flags. f_equal. apply map_ext_in.
  intros r Hr. apply Hflag.
  unfold group in Hr. apply filter_In in Hr. tauto.
Qed.

(** C5: the failure rates have one line for each category of the algorithm
    column, in order, whether the table has records of it or not.  The
    records are partitioned by their label: the group of a category is the
    records that carry it.  The line of a category reports the mean of the
    failure flags of its group: the missing value when the group has no
    record, and otherwise the number of its failed records over the number
    of its records, which is 0 when none failed. *)
Theorem failure_rate_keeps_every_category
        (df : frame) (cs : list value) (flag : row -> bool) :
  dtype_of (dtypes df) "AlgorithmType" = Some (DCategory cs) ->
  (forall r, In r (rows df) -> cell r "Failure" = VBool (flag r)) ->
  map fst (failure_rates df) = cs
  /\ (forall c (p : row -> bool),
        c <> VNaN ->
        (forall r, p r = true <-> cell r "AlgorithmType" = c) ->
        group df "AlgorithmType" c = filter p (rows df))
  /\ (forall c v (p : row -> bool),
        In (c, v) (failure_rates df) ->
        c <> VNaN ->
        (forall r, p r = true <-> cell r "AlgorithmType" = c) ->
        let members := filter p (rows df) in
        let failed := filter flag members in
        (members = [] -> v = VNaN)
        /\ (members <> [] ->
            exists q, v = VNum q
                      /\ (q * inject_Z (Z.of_nat (List.length members))
                          == inject_Z (Z.of_nat (List.length failed)))%Q
                      /\ (failed = [] -> q = 0%Q))).
Proof.
  intros Hd Hflag.
  assert (Hcs : categories_of df "AlgorithmType" = cs).
  { unfold categories_of. rewrite Hd. reflexivity. }
  split; [| split].
  - unfold failure_rates, groupby_mean. rewrite map_map. cbn [fst].
    rewrite Hcs. apply map_id.
  - intros c p Hc Hp. now apply group_decided.
  - intros c v p Hin Hc Hp members failed.
    rewrite (failure_rates_of_flags df flag Hflag) in Hin.
    apply in_map_iff in Hin. destruct Hin as [c' [Heq _]].
    cbn zeta in Heq. injection Heq as -> <-.
    rewrite (group_decided df "AlgorithmType" c p Hc Hp).
    fold members. fold failed. split.
    + intros ->. reflexivity.
    + intros Hne.
      destruct (rate_is_fraction (List.length failed) (List.length members))
        as [q [Hq [Hfrac Hzero]]].
      { destruct members; [congruence | discriminate]. }
      exists q. split; [exact Hq |]. split; [exact Hfrac |].
      intros Hnone. apply Hzero. rewrite Hnone. reflexivity.
Qed.

End GroupFacts.


Section RecordStatistics.
Context `{P : Analyze.Pandas}.
Import Analyze.






End RecordStatistics.

(** * The correlation matrix *)

Section PearsonFacts.
Import Analyze.

Lemma Qsum_cons (q : Q) (qs : list Q) : Qsum (q :: qs) = (q + Qsum qs)%Q.
Proof. reflexivity. Qed.

Lemma Qsum_map_ext {A : Type} (F G : A -> Q) (l : list A) :
  (forall x, F x == G x)%Q -> (Qsum (map F l) == Qsum (map G l))%Q.
Proof.
  intros Hext. induction l as [| x l IH]; [reflexivity |].
  cbn [map]. rewrite !Qsum_cons, IH, (Hext x). reflexivity.
Qed.

Lemma Qsquare_nonneg (t : Q) : (0 <= t * t)%Q.
Proof.
  destruct (Qlt_le_dec t 0) as [Hneg | Hpos].
  - setoid_replace (t * t)%Q with ((- t) * (- t))%Q by ring.
    apply Qmult_le_0_compat; lra.
  - apply Qmult_le_0_compat; exact Hpos.
Qed.

Lemma Qsum_squares_nonneg {A : Type} (F : A -> Q) (l : list A) :
  (0 <= Qsum (map (fun x => F x * F x) l))%Q.
Proof.
  induction l as [| x l IH]; [apply Qle_refl |].
  cbn [map]. rewrite Qsum_cons. pose proof (Qsquare_nonneg (F x)). lra.
Qed.

(** The inequality of Cauchy and Schwarz, for sums over a list. *)
Lemma Qsum_products_bounded {A : Type} (F G : A -> Q) (l : list A) :
  (Qsum (map (fun x => F x * G x) l) * Qsum (map (fun x => F x * G x) l)
   <= Qsum (map (fun x => F x * F x) l) * Qsum (map (fun x => G x * G x) l))%Q.
Proof.
  induction l as [| x l IH]; [cbn; lra |].
  cbn [map]. rewrite !Qsum_cons.
  pose proof (Qsum_squares_nonneg F l) as HX.
  pose proof (Qsum_squares_nonneg G l) as HY.
  set (P := Qsum (map (fun x => F x * G x)%Q l)) in *.
  set (X := Qsum (map (fun x => F x * F x)%Q l)) in *.
  set (Y := Qsum (map (fun x => G x * G x)%Q l)) in *.
  set (a := F x). set (b := G x). clearbody P X Y a b.
  assert (Hmix : (2 * (a * b) * P <= a * a * Y + b * b * X)%Q).
  { destruct (Qlt_le_dec 0 X) as [Hpos | Hzero].
    - assert (H1 : (0 <= X * (a * a * Y + b * b * X - 2 * (a * b) * P))%Q).
      { pose proof (Qsquare_nonneg (a * P - b * X)) as Hsq.
        pose proof (Qsquare_nonneg a) as Ha.
        assert (Hstep : (0 <= (a * a) * (X * Y - P * P))%Q).
        { apply Qmult_le_0_compat; [exact Ha | lra]. }
        setoid_replace (X * (a * a * Y + b * b * X - 2 * (a * b) * P))%Q
          with ((a * P - b * X) * (a * P - b * X)
                + (a * a) * (X * Y - P * P))%Q by ring.
        lra. }
      nra.
    - assert (HX0 : (X == 0)%Q) by lra.
      assert (HP0 : (P == 0)%Q) by nra.
      rewrite HX0, HP0. nra. }
  nra.
Qed.

Lemma codeviation_bounded {A : Type} (f g : A -> Q) (obs : list A) :
  (codeviation f g obs * codeviation f g obs
   <= codeviation f f obs * codeviation g g obs)%Q.
Proof.
  exact (Qsum_products_bounded (fun p => f p - average (map f obs))%Q
                               (fun p => g p - average (map g obs))%Q obs).
Qed.

Lemma codeviation_nonneg {A : Type} (f : A -> Q) (obs : list A) :
  (0 <= codeviation f f obs)%Q.
Proof.
  exact (Qsum_squares_nonneg (fun p => f p - average (map f obs))%Q obs).
Qed.

Lemma codeviation_comm {A : Type} (f g : A -> Q) (obs : list A) :
  (codeviation f g obs == codeviation g f obs)%Q.
Proof.
  unfold codeviation. apply Qsum_map_ext. intros x. ring.
Qed.

Lemma codeviation_map {A B : Type} (h : A -> B) (f g : B -> Q) (l : list A) :
  codeviation f g (map h l)
  = codeviation (fun x => f (h x)) (fun x => g (h x)) l.
Proof.
  unfold codeviation. rewrite !map_map. reflexivity.
Qed.

Lemma Qeq_bool_zero_compat (a b : Q) :
  (a == b)%Q -> Qeq_bool a 0 = Qeq_bool b 0.
Proof.
  intros Hab. apply eq_true_iff_eq. rewrite !Qeq_bool_iff, Hab. reflexivity.
Qed.

(** The signed square of a ratio whose square is at most 1. *)
Lemma signed_square_bounded (n d : Q) :
  (0 < d)%Q -> (n * n <= d)%Q ->
  (- (1) <= n * Qabs n / d)%Q /\ (n * Qabs n / d <= 1)%Q.
Proof.
  intros Hd Hn.
  assert (Hnum : (- d <= n * Qabs n)%Q /\ (n * Qabs n <= d)%Q).
  { destruct (Qlt_le_dec n 0) as [Hneg | Hpos].
    - rewrite (Qabs_neg n) by lra.
      setoid_replace (n * - n)%Q with (- (n * n))%Q by ring.
      pose proof (Qsquare_nonneg n). split; lra.
    - rewrite (Qabs_pos n) by exact Hpos.
      pose proof (Qsquare_nonneg n). split; lra. }
  destruct Hnum as [Hlo Hhi]. split.
  - apply Qle_shift_div_l; [exact Hd | lra].
  - apply Qle_shift_div_r; [exact Hd | lra].
Qed.

(** What the coefficient is: undefined exactly when a column has no
    spread, and otherwise the number between -1 and 1 with the sign of the
    covariance and the square [sxy^2 / (sxx * syy)]. *)
Lemma pearson_r_is_pearson (obs : list (Q * Q)) :
  let sxy := codeviation fst snd obs in
  let sxx := codeviation fst fst obs in
  let syy := codeviation snd snd obs in
  (pearson_r obs = Undefined <-> (sxx * syy == 0)%Q)
  /\ (forall q, pearson_r obs = SignedSquare q ->
                (q * (sxx * syy) == sxy * Qabs sxy)%Q
                /\ (- (1) <= q)%Q /\ (q <= 1)%Q).
Proof.
  intros sxy sxx syy. unfold pearson_r. fold sxy sxx syy.
  destruct (Qeq_bool (sxx * syy) 0) eqn:E.
  - apply Qeq_bool_iff in E. split; [tauto |]. intros q Hq. discriminate Hq.
  - apply Qeq_bool_neq in E. split.
    + split; [discriminate | intros H; contradiction].
    + intros q Hq. injection Hq as <-.
      assert (Hd : (0 < sxx * syy)%Q).
      { pose proof (codeviation_nonneg fst obs) as Hx.
        pose proof (codeviation_nonneg snd obs) as Hy.
        fold sxx in Hx. fold syy in Hy.
        pose proof (Qmult_le_0_compat _ _ Hx Hy) as Hxy.
        apply Qle_lteq in Hxy. destruct Hxy as [Hlt | Heq]; [exact Hlt |].
        exfalso. apply E. symmetry. exact Heq. }
      pose proof (signed_square_bounded sxy (sxx * syy) Hd
                    (codeviation_bounded fst snd obs)) as [Hlo Hhi].
      pose proof (Qred_correct (sxy * Qabs sxy / (sxx * syy))) as Hred.
      split; [| split].
      * rewrite Hred. field.
        split; intros H; apply E; rewrite H; ring.
      * rewrite Hred. exact Hlo.
      * rewrite Hred. exact Hhi.
Qed.

(** The coefficient of a column with itself is 1 when it is defined. *)
Lemma pearson_r_diagonal (xs : list Q) :
  pearson_r (map (fun x => (x, x)) xs) = Undefined
  \/ pearson_r (map (fun x => (x, x)) xs) = SignedSquare 1.
Proof.
  unfold pearson_r. rewrite !codeviation_map. cbn [fst snd].
  set (v := codeviation (fun x : Q => x) (fun x : Q => x) xs).
  destruct (Qeq_bool (v * v) 0) eqn:E; [left; reflexivity | right].
  apply Qeq_bool_neq in E.
  pose proof (codeviation_nonneg (fun x : Q => x) xs) as Hv. fold v in Hv.
  f_equal. change 1%Q with (Qred 1). apply Qred_complete.
  rewrite (Qabs_pos v) by exact Hv. field.
  intros H. apply E. rewrite H. ring.
Qed.

(** The coefficient does not depend on which column comes first. *)
Lemma pearson_r_symmetric (obs : list (Q * Q)) :
  pearson_r (map (fun p => (snd p, fst p)) obs) = pearson_r obs.
Proof.
  unfold pearson_r. rewrite !codeviation_map. cbn [fst snd].
  change (codeviation (fun x : Q * Q => snd x) (fun x : Q * Q => snd x) obs)
    with (codeviation snd snd obs).
  change (codeviation (fun x : Q * Q => fst x) (fun x : Q * Q => fst x) obs)
    with (codeviation fst fst obs).
  change (codeviation (fun x : Q * Q => snd x) (fun x : Q * Q => fst x) obs)
    with (codeviation snd fst obs).
  rewrite (Qeq_bool_zero_compat
             (codeviation snd snd obs * codeviation fst fst obs)
             (codeviation fst fst obs * codeviation snd snd obs))
    by ring.
  destruct (Qeq_bool (codeviation fst fst obs * codeviation snd snd obs) 0) eqn:E;
    [reflexivity |].
  f_equal. apply Qred_complete.
  rewrite (codeviation_comm snd fst obs).
  apply Qeq_bool_neq in E. field. split; intros H; apply E; rewrite H; ring.
Qed.

Lemma complete_pairs_swapped (df : frame) (a b : string) :
  complete_pairs df b a
  = map (fun p => (snd p, fst p)) (complete_pairs df a b).
Proof.
  unfold complete_pairs. induction (rows df) as [| r l IH]; [reflexivity |].
  cbn [flat_map]. rewrite map_app, <- IH. f_equal.
  destruct (cell r a) as [| x | |], (cell r b) as [| y | |]; reflexivity.
Qed.

Lemma complete_pairs_same (df : frame) (a : string) :
  complete_pairs df a a
  = map (fun x => (x, x))
        (flat_map (fun r => match cell r a with VNum x => [x] | _ => [] end)
                  (rows df)).
Proof.
  unfold complete_pairs. induction (rows df) as [| r l IH]; [reflexivity |].
  cbn [flat_map]. rewrite map_app, <- IH. f_equal.
  destruct (cell r a) as [| x | |]; reflexivity.
Qed.

(** The observations of a pair of columns are the pairs of numbers of the
    records that have a number in both. *)
Lemma In_complete_pairs (df : frame) (a b : string) (x y : Q) :
  In (x, y) (complete_pairs df a b)
  <-> exists r, In r (rows df) /\ cell r a = VNum x /\ cell r b = VNum y.
Proof.
  unfold complete_pairs. rewrite in_flat_map. split.
  - intros [r [Hr Hin]]. exists r. split; [exact Hr |].
    destruct (cell r a) as [| x' | |], (cell r b) as [| y' | |];
      try contradiction.
    destruct Hin as [Heq | []]. injection Heq as -> ->. split; reflexivity.
  - intros [r [Hr [Ha Hb]]]. exists r. split; [exact Hr |].
    rewrite Ha, Hb. left. reflexivity.
Qed.

End PearsonFacts.

Section CorrelationClaims.
Context `{P : Analyze.Pandas}.
Import Analyze.

(** The entries of the matrix, and what they are computed from, for any
    table. *)
Lemma correlation_entries (df : frame) :
  let m := corr_matrix df in
  let entry (a b : string) := pearson_r (complete_pairs df a b) in
  (forall i j a b,
     nth_error (labels m) i = Some a ->
     nth_error (labels m) j = Some b ->
     exists line, nth_error (entries m) i = Some line
                  /\ nth_error line j = Some (entry a b))
  /\ (forall a b x y,
        In (x, y) (complete_pairs df a b)
        <-> exists r, In r (rows df) /\ cell r a = VNum x /\ cell r b = VNum y)
  /\ (forall l1 l2 r a b,
        rows df = (l1 ++ r :: l2)%list ->
        (isna (cell r a) || isna (cell r b) = true ->
         complete_pairs df a b
         = complete_pairs {| dtypes := dtypes df; rows := l1 ++ l2 |} a b)
        /\ (forall x y,
              cell r a = VNum x -> cell r b = VNum y ->
              complete_pairs df a b
              = (complete_pairs {| dtypes := dtypes df; rows := l1 |} a b
                 ++ (x, y)
                 :: complete_pairs {| dtypes := dtypes df; rows := l2 |} a b)%list))
  /\ (forall a b,
        let obs := complete_pairs df a b in
        let sxy := codeviation fst snd obs in
        let sxx := codeviation fst fst obs in
        let syy := codeviation snd snd obs in
        (entry a b = Undefined <-> (sxx * syy == 0)%Q)
        /\ (forall q, entry a b = SignedSquare q ->
                      (q * (sxx * syy) == sxy * Qabs sxy)%Q
                      /\ (- (1) <= q)%Q /\ (q <= 1)%Q)
        /\ entry b a = entry a b
        /\ (entry a a = Undefined \/ entry a a = SignedSquare 1)).
Proof.
  intros m entry. split; [| split; [| split]].
  - intros i j a b Hi Hj. unfold m, corr_matrix, corr in *. cbn [labels entries] in *.
    eexists. split.
    + apply map_nth_error. exact Hi.
    + cbv beta. apply (map_nth_error (fun b => pearson_r (complete_pairs df a b))).
      exact Hj.
  - intros a b x y. apply In_complete_pairs.
  - intros l1 l2 r a b Hrows. split.
    + intros Hna. exact (complete_pairs_rows df l1 l2 r a b Hrows Hna).
    + intros x y Ha Hb.
      rewrite <- (complete_pairs_keeps (dtypes df) l1 l2 r a b x y Ha Hb).
      unfold complete_pairs. cbn [rows]. rewrite Hrows. reflexivity.
  - intros a b obs sxy sxx syy. unfold entry. fold obs.
    destruct (pearson_r_is_pearson obs) as [Hundef Hnum].
    split; [exact Hundef |]. split; [exact Hnum |]. split.
    + rewrite (complete_pairs_swapped df a b). apply pearson_r_symmetric.
    + rewrite (complete_pairs_same df a). apply pearson_r_diagonal.
Qed.

(** C6: the correlation matrix of the loaded table has a row and a column
    for each column whose dtype is a number, except [Seed], which is never
    among them; the designated numeric columns of the store are among them.
    The entry of two columns is the Pearson coefficient of their complete
    observations: the pairs of numbers of the records that have a number in
    both columns, each such record giving its pair, in order, and a record
    with a missing value in either column giving nothing, as if it were not
    in the table.  The coefficient is undefined when one of the two has no
    spread over these observations, and otherwise it is the number between
    -1 and 1 with the sign of the covariance whose square is the squared
    covariance over the product of the two sums of squared deviations; it
    is symmetric, and 1 on the diagonal when defined. *)
Theorem correlation_excludes_seed (df0 df : frame) (st st' : state) :
  load df0 st = (Ok df, st') ->
  NoDup (columns df0) ->
  let m := corr_matrix df in
  let entry (a b : string) := pearson_r (complete_pairs df a b) in
  ~ In "Seed" (labels m)
  /\ (forall c, In c (labels m)
                <-> c <> "Seed" /\ dtype_of (dtypes df) c = Some DNumber)
  /\ (forall c, In c numeric_columns -> c <> "Seed" ->
                has_column df0 c = true ->
                dtype_of (dtypes df0) c <> Some DBool ->
                In c (labels m))
  /\ (forall i j a b,
        nth_error (labels m) i = Some a ->
        nth_error (labels m) j = Some b ->
        exists line, nth_error (entries m) i = Some line
                     /\ nth_error line j = Some (entry a b))
  /\ (forall a b x y,
        In (x, y) (complete_pairs df a b)
        <-> exists r, In r (rows df) /\ cell r a = VNum x /\ cell r b = VNum y)
  /\ (forall l1 l2 r a b,
        rows df = (l1 ++ r :: l2)%list ->
        (isna (cell r a) || isna (cell r b) = true ->
         complete_pairs df a b
         = complete_pairs {| dtypes := dtypes df; rows := l1 ++ l2 |} a b)
        /\ (forall x y,
              cell r a = VNum x -> cell r b = VNum y ->
              complete_pairs df a b
              = (complete_pairs {| dtypes := dtypes df; rows := l1 |} a b
                 ++ (x, y)
                 :: complete_pairs {| dtypes := dtypes df; rows := l2 |} a b)%list))
  /\ (forall a b,
        let obs := complete_pairs df a b in
        let sxy := codeviation fst snd obs in
        let sxx := codeviation fst fst obs in
        let syy := codeviation snd snd obs in
        (entry a b = Undefined <-> (sxx * syy == 0)%Q)
        /\ (forall q, entry a b = SignedSquare q ->
                      (q * (sxx * syy) == sxy * Qabs sxy)%Q
                      /\ (- (1) <= q)%Q /\ (q <= 1)%Q)
        /\ entry b a = entry a b
        /\ (entry a a = Undefined \/ entry a a = SignedSquare 1)).
Proof.
  intros Hl Hnd m entry.
  apply load_inv in Hl. destruct Hl as [Ha [Hi [-> _]]].
  pose proof (columns_loaded df0 Ha Hnd) as Hnd'.
  assert (Hlab : forall c, In c (labels m)
            <-> c <> "Seed" /\ dtype_of (dtypes (loaded df0)) c = Some DNumber).
  { intros c. unfold m, corr_matrix, corr. cbn [labels].
    apply In_numeric_cols. exact Hnd'. }
  split; [| split; [exact Hlab | split]].
  - intros Hin. destruct (proj1 (Hlab "Seed") Hin) as [Hne _].
    apply Hne. reflexivity.
  - intros c Hc Hseed Hhas Hbool. apply (proj2 (Hlab c)).
    split; [exact Hseed |].
    assert (Hne : c <> "Failure").
    { intros ->. cbn in Hc.
      repeat (destruct Hc as [Hc | Hc]; [discriminate Hc |]). exact Hc. }
    assert (Hna : c <> "AlgorithmType").
    { intros ->. cbn in Hc.
      repeat (destruct Hc as [Hc | Hc]; [discriminate Hc |]). exact Hc. }
    rewrite dtype_loaded by exact Hne. cbn zeta.
    assert (He : existsb (String.eqb c) numeric_columns = true)
      by (apply existsb_eqb_In; exact Hc).
    rewrite He. unfold has_column at 1.
    rewrite columns_astype_category by exact Ha.
    fold (has_column df0 c). rewrite Hhas. cbn [andb].
    unfold astype_category. cbn [dtypes].
    rewrite dtype_of_set_dtype_other by exact Hna.
    destruct (dtype_of (dtypes df0) c) as [[| | |] |]; try reflexivity.
    congruence.
  - exact (correlation_entries (loaded df0)).
Qed.

End CorrelationClaims.

(** * The statistics on the example tables *)

Section StatisticsExamples.
Import Analyze Demo.

(** Of the three Genetic records one failed; the declared Tournament
    category has no record, and its rate is the missing value, not 0. *)
Lemma failure_rate_keeps_every_category_witness :
  map fst (failure_rates genetic_only) = [VStr "Genetic"; VStr "Tournament"]
  /\ List.length (group genetic_only "AlgorithmType" (VStr "Genetic")) = 3%nat
  /\ (exists q, VNum (1 # 3) = VNum q /\ (q * inject_Z 3 == inject_Z 1)%Q)
  /\ In (VStr "Tournament", VNaN) (failure_rates genetic_only).
Proof.
  assert (Hflag : forall r, In r (rows genetic_only) ->
            cell r "Failure" = VBool (gt0 (cell r "Intersections"))).
  { intros r Hr. cbn in Hr.
    repeat (destruct Hr as [<- | Hr]; [reflexivity |]). contradiction. }
  assert (Hg : VStr "Genetic" <> VNaN) by discriminate.
  assert (Ht : VStr "Tournament" <> VNaN) by discriminate.
  destruct (failure_rate_keeps_every_category genetic_only
              [VStr "Genetic"; VStr "Tournament"]
              (fun r => gt0 (cell r "Intersections")) eq_refl Hflag)
    as [Hkeys [Hgroup Hrate]].
  split; [exact Hkeys |]. split; [| split].
  - rewrite (Hgroup (VStr "Genetic") _ Hg
               (value_eqb_decides (VStr "Genetic") "AlgorithmType" Hg)).
    reflexivity.
  - destruct (Hrate (VStr "Genetic") (VNum (1 # 3)) _
                (or_introl eq_refl) Hg
                (value_eqb_decides (VStr "Genetic") "AlgorithmType" Hg))
      as [_ Hsome].
    destruct (Hsome ltac:(discriminate)) as [q [Hq [Hfrac _]]].
    exists q. split; [exact Hq | exact Hfrac].
  - assert (Hline : In (VStr "Tournament") (map fst (failure_rates genetic_only))).
    { rewrite Hkeys. right. left. reflexivity. }
    apply in_map_iff in Hline. destruct Hline as [[c v] [Hc Hv]].
    cbn [fst] in Hc. subst c.
    rewrite <- (proj1 (Hrate (VStr "Tournament") v _ Hv Ht
                         (value_eqb_decides (VStr "Tournament") "AlgorithmType" Ht))
                      eq_refl).
    exact Hv.
Defined.

(** [Seed] is a numeric column of the runs with a gap, and is not in their
    correlation matrix.  The entry for the elapsed time and the
    intersections is computed from the first and the third run only, and
    is 1: the second run, which has no elapsed time, gives no observation
    (with 0 for its elapsed time the coefficient would not be 1). *)
Lemma correlation_excludes_seed_witness :
  let df := @loaded demo_pandas gap_runs in
  let m := corr_matrix df in
  dtype_of (dtypes df) "Seed" = Some DNumber
  /\ ~ In "Seed" (labels m)
  /\ complete_pairs df "ElapsedTimeSeconds" "Intersections" = [(1, 0); (3, 2)]%Q
  /\ exists line, nth_error (entries m) 2 = Some line
                  /\ nth_error line 3 = Some (SignedSquare 1).
Proof.
  cbn zeta.
  destruct (@correlation_excludes_seed demo_pandas gap_runs
              (@loaded demo_pandas gap_runs) nothing_yet nothing_yet
              ltac:(vm_compute; reflexivity) five_runs_columns_distinct)
    as [Hseed [_ [_ [Hentry [_ [Hsplit _]]]]]].
  split; [reflexivity |]. split; [exact Hseed |]. split.
  - rewrite (proj1 (Hsplit
               [@load_row demo_pandas gap_runs (record "Genetic" 8 0 (num 1) (num 0))]
               [@load_row demo_pandas gap_runs (record "Genetic" 8 2 (num 3) (num 2))]
               (@load_row demo_pandas gap_runs (record "Genetic" 8 1 VNaN (num 5)))
               "ElapsedTimeSeconds" "Intersections"
               ltac:(vm_compute; reflexivity))
             ltac:(vm_compute; reflexivity)).
    vm_compute. reflexivity.
  - destruct (Hentry 2%nat 3%nat "ElapsedTimeSeconds" "Intersections"
                     eq_refl eq_refl) as [line [Hline Hcell]].
    exists line. split; [exact Hline |].
    rewrite Hcell. vm_compute. reflexivity.
Defined.


End StatisticsExamples.
